(** * Waitlist admission store and registration flow

    A shallow embedding of the waitlist code of the API:

    - [constants.ts]: [WAITLIST_KEYS] and the four Lua scripts of
      [REDIS_SCRIPTS], run against a model of the Redis keys they touch;
    - [utils/waitlistUtils.ts]: [getPositionByIdentifier], [isOnWaitlist],
      [getPosition] and [insertUser];
    - [utils/controller/userManagementUtils.ts]: the helpers of the
      registration flow;
    - [controllers/userManagement/userManagementControllers.ts]:
      [addToWaitlistController], [waitlistUserCanSignUpController] and
      [registerUserController].

    Numbers are integers ([Z]); request ids and durations, which only
    decorate the responses, are left out of the response records. *)

From stdpp Require Import base gmap list strings pretty.
From Stdlib Require Import ZArith Ascii.

Local Open Scope string_scope.
Local Open Scope list_scope.
Local Open Scope Z_scope.

(** ** Redis: the keys of [WAITLIST_KEYS] and the commands the scripts issue *)

Module Redis.

(** ['waitlist:list'], the only list key. *)
Inductive lkey := waitlist_list.

(** ['waitlist:users'], ['waitlist:emails'] and ['waitlist:phones'], the
    hash keys.  (['waitlist:signed_up'] is declared but never used.) *)
Inductive hkey := waitlist_users | waitlist_emails | waitlist_phones.

Record store := Store {
  queue : list string;                (* waitlist:list   *)
  users : gmap string string;         (* waitlist:users  *)
  emails : gmap string string;        (* waitlist:emails *)
  phones : gmap string string         (* waitlist:phones *)
}.

Definition empty_store : store := Store [] ∅ ∅ ∅.

Definition hash (k : hkey) (s : store) : gmap string string :=
  match k with
  | waitlist_users => users s
  | waitlist_emails => emails s
  | waitlist_phones => phones s
  end.

Definition hash_set (k : hkey) (field value : string) (s : store) : store :=
  match k with
  | waitlist_users => Store (queue s) (<[field := value]> (users s)) (emails s) (phones s)
  | waitlist_emails => Store (queue s) (users s) (<[field := value]> (emails s)) (phones s)
  | waitlist_phones => Store (queue s) (users s) (emails s) (<[field := value]> (phones s))
  end.

Inductive command :=
| HGET (k : hkey) (field : string)
| HSET (k : hkey) (field value : string)
| LRANGE (k : lkey) (start stop : Z)
| LLEN (k : lkey)
| RPUSH (k : lkey) (value : string).

Definition is_write (c : command) : bool :=
  match c with
  | HSET _ _ _ | RPUSH _ _ => true
  | HGET _ _ | LRANGE _ _ _ | LLEN _ => false
  end.

(** A script is a store transformer that also records, in order, the
    commands it has sent through [redis.call]. *)
Definition Script (A : Type) : Type := store → A * store * list command.

Definition ret {A} (a : A) : Script A := λ s, (a, s, []).

Definition bind {A B} (m : Script A) (f : A → Script B) : Script B :=
  λ s, let '(a, s1, l1) := m s in
       let '(b, s2, l2) := f a s1 in
       (b, s2, l1 ++ l2).

(** [redis.call('HGET', key, field)]: a missing field is Lua's [false]. *)
Definition call_HGET (k : hkey) (field : string) : Script (option string) :=
  λ s, (hash k s !! field, s, [HGET k field]).

Definition call_HSET (k : hkey) (field value : string) : Script unit :=
  λ s, (tt, hash_set k field value s, [HSET k field value]).

(** [redis.call('LRANGE', key, 0, -1)]: the whole list. *)
Definition call_LRANGE_all (k : lkey) : Script (list string) :=
  λ s, (queue s, s, [LRANGE k 0 (-1)]).

Definition call_LLEN (k : lkey) : Script Z :=
  λ s, (Z.of_nat (length (queue s)), s, [LLEN k]).

Definition call_RPUSH (k : lkey) (value : string) : Script unit :=
  λ s, (tt, Store (queue s ++ [value]) (users s) (emails s) (phones s),
        [RPUSH k value]).

End Redis.

Import Redis.

#[global] Instance Script_ret : MRet Script := @Redis.ret.
#[global] Instance Script_bind : MBind Script := λ A B f m, Redis.bind m f.

(** ** [REDIS_SCRIPTS] *)

Module REDIS_SCRIPTS.

(** [for i, item in ipairs(items) do if item == id then return i end end],
    falling through to [0]; [i] is the index of the head of [items]. *)
Fixpoint ipairs_find (items : list string) (id : string) (i : Z) : Z :=
  match items with
  | [] => 0
  | item :: rest =>
      if String.eqb item id then i else ipairs_find rest id (i + 1)
  end.

Definition getPositionByIdentifier (KEYS1 : lkey) (KEYS2 KEYS3 : hkey)
    (identifier : string) : Script Z :=
  userId ← call_HGET KEYS2 identifier;
  userId ← match userId with
            | None => call_HGET KEYS3 identifier
            | Some _ => ret userId
            end;
  match userId with
  | None => ret 0
  | Some userId =>
      items ← call_LRANGE_all KEYS1;
      ret (ipairs_find items userId 1)
  end.

Definition isOnWaitlist (KEYS1 KEYS2 : hkey) (identifier : string)
    : Script Z :=
  userId ← call_HGET KEYS1 identifier;
  match userId with
  | Some _ => ret 1
  | None =>
      userId ← call_HGET KEYS2 identifier;
      match userId with
      | Some _ => ret 1
      | None => ret 0
      end
  end.

Definition getPosition (KEYS1 : lkey) (id : string) : Script Z :=
  items ← call_LRANGE_all KEYS1;
  ret (ipairs_find items id 1).

(** The script answers with the table [{position, existed, userIdToUse}]. *)
Definition insertUser (KEYS1 : lkey) (KEYS2 KEYS3 KEYS4 : hkey)
    (id email phone : string) (limit : Z) (userDataJson : string)
    : Script (Z * Z * string) :=
  let userIdToUse := id in
  let existed := 0 in
  (* Check if user exists by email *)
  '(userIdToUse, existed) ←
    (if negb (String.eqb email EmptyString) then
       existingIdByEmail ← call_HGET KEYS2 email;
       match existingIdByEmail with
       | Some existingIdByEmail => ret (existingIdByEmail, 1)
       | None => ret (userIdToUse, existed)
       end
     else ret (userIdToUse, existed));
  (* Check if user exists by phone (only if not found by email) *)
  '(userIdToUse, existed) ←
    (if (existed =? 0) && negb (String.eqb phone EmptyString) then
       existingIdByPhone ← call_HGET KEYS3 phone;
       match existingIdByPhone with
       | Some existingIdByPhone => ret (existingIdByPhone, 1)
       | None => ret (userIdToUse, existed)
       end
     else ret (userIdToUse, existed));
  if existed =? 1 then
    (* If user existed, find their position *)
    items ← call_LRANGE_all KEYS1;
    let position := ipairs_find items userIdToUse 1 in
    call_HSET KEYS4 userIdToUse userDataJson ;;
    ret (position, existed, userIdToUse)
  else
    (* If new user, check limit and add *)
    currentLength ← call_LLEN KEYS1;
    if currentLength >=? limit then
      ret (-1, -1, EmptyString)
    else
      call_RPUSH KEYS1 userIdToUse ;;
      let position := currentLength + 1 in
      (if negb (String.eqb email EmptyString)
       then call_HSET KEYS2 email userIdToUse else ret tt) ;;
      (if negb (String.eqb phone EmptyString)
       then call_HSET KEYS3 phone userIdToUse else ret tt) ;;
      call_HSET KEYS4 userIdToUse userDataJson ;;
      ret (position, existed, userIdToUse).

End REDIS_SCRIPTS.

(** ** Values shared by the TypeScript side *)

(** A function either returns or throws an [Error] with a message. *)
Inductive completion (A : Type) :=
| Return (value : A)
| Throw (message : string).
Arguments Return {A} value.
Arguments Throw {A} message.

(** What a call leaves behind: a script run through [redis.eval], with the
    commands it issued, or a remote procedure of the [user_onboarding]
    schema called through the Supabase client. *)
Inductive script_name :=
| script_getPositionByIdentifier | script_isOnWaitlist
| script_getPosition | script_insertUser.

Inductive rpc_name :=
| rpc_check_user_exists (username : string)
| rpc_get_current_settings
| rpc_increment_user_count (username : string).

Inductive event :=
| redis_eval (script : script_name) (commands : list command)
| supabase_rpc (fn : rpc_name).

(** An [async] function holding the Redis client: it may change the store
    and leaves a trace of events. *)
Definition Task (A : Type) : Type := store → A * store * list event.

#[global] Instance Task_ret : MRet Task := λ A a s, (a, s, []).
#[global] Instance Task_bind : MBind Task := λ A B f m s,
  let '(a, s1, t1) := m s in
  let '(b, s2, t2) := f a s1 in
  (b, s2, t1 ++ t2).

(** [redis.eval(script, ...)]: the script runs as one indivisible step. *)
Definition redis_eval_script {A} (name : script_name) (script : Script A)
    : Task A :=
  λ s, let '(a, s', commands) := script s in (a, s', [redis_eval name commands]).

(** The commands a trace sent to Redis, in order. *)
Definition commands_of (t : list event) : list command :=
  flat_map (λ e, match e with
                 | redis_eval _ commands => commands
                 | supabase_rpc _ => []
                 end) t.

Definition writes_of (t : list event) : list command :=
  filter (λ c, is_write c = true) (commands_of t).

Module WAITLIST_KEYS.
Definition waitlist : lkey := waitlist_list.
Definition users : hkey := waitlist_users.
Definition emails : hkey := waitlist_emails.
Definition phones : hkey := waitlist_phones.
End WAITLIST_KEYS.

(** ** The libraries the code calls

    [validator.isEmail], [parsePhoneNumberFromString] of libphonenumber-js,
    the string methods [trim] and [toLowerCase], and [JSON.stringify] on the
    record that [insertUser] stores.  [JSONValue] stands for the values of
    type [any] held in the metadata. *)

Module PhoneNumber.
Record t := { isValid : bool; number : string }.
End PhoneNumber.

(** [UserData] and [InsertResult] of [types.ts], and the object that
    [insertUser] serialises into ['waitlist:users']. *)
Record UserData (JSONValue : Type) := {
  username : string;
  metadata : option (gmap string JSONValue)
}.
Arguments username {JSONValue} _.
Arguments metadata {JSONValue} _.

Record InsertResult := {
  id : string;
  position : Z;
  already_existed : bool
}.

Record StoredUserData (JSONValue : Type) := {
  stored_id : string;
  stored_email : option string;
  stored_phone : option string;
  stored_metadata : option (gmap string JSONValue)
}.
Arguments Build_StoredUserData {JSONValue}.

Class Libraries := {
  JSONValue : Type;
  validator_isEmail : string → bool;
  parsePhoneNumberFromString : string → option PhoneNumber.t;
  String_trim : string → string;
  String_toLowerCase : string → string;
  JSON_stringify : StoredUserData JSONValue → string
}.

(** JavaScript truthiness of a [string | null]. *)
Definition truthy (x : option string) : bool :=
  match x with
  | Some s => negb (String.eqb s EmptyString)
  | None => false
  end.

(** [x || ''] for a [string | null]. *)
Definition or_empty (x : option string) : string :=
  match x with
  | Some s => s
  | None => EmptyString
  end.

(** ** [utils/waitlistUtils.ts] *)

Module waitlistUtils.
Section waitlistUtils.
Context `{Libraries}.

Definition getPositionByIdentifier (identifier : string) : Task Z :=
  redis_eval_script script_getPositionByIdentifier
    (REDIS_SCRIPTS.getPositionByIdentifier
       WAITLIST_KEYS.waitlist WAITLIST_KEYS.emails WAITLIST_KEYS.phones
       identifier).

Definition isOnWaitlist (identifier : string) : Task bool :=
  result ← redis_eval_script script_isOnWaitlist
    (REDIS_SCRIPTS.isOnWaitlist
       WAITLIST_KEYS.emails WAITLIST_KEYS.phones identifier);
  mret (result =? 1).

Definition getPosition (id : string) : Task Z :=
  redis_eval_script script_getPosition
    (REDIS_SCRIPTS.getPosition WAITLIST_KEYS.waitlist id).

(** The result handed back for an identifier that is neither an email
    nor a valid phone number. *)
Definition invalid_result : InsertResult :=
  {| id := EmptyString; position := 0; already_existed := false |}.

(** Lines 104-120: [Some (sanitizedEmail, sanitizedPhone)], or [None] on
    the early return for an invalid identifier. *)
Definition sanitize (username : string)
    : option (option string * option string) :=
  if validator_isEmail username then
    Some (Some (String_toLowerCase username), None)
  else
    match parsePhoneNumberFromString username with
    | Some phoneNumber =>
        if PhoneNumber.isValid phoneNumber
        then Some (None, Some (PhoneNumber.number phoneNumber)) (* E.164 *)
        else None
    | None => None
    end.

(** [finalUserId] is the value drawn by [uuidv4()]. *)
Definition insertUser (data : UserData JSONValue) (waitlistLimit : Z)
    (finalUserId : string) : Task (completion InsertResult) :=
  let username := String_trim (username data) in
  match sanitize username with
  | None => mret (Return invalid_result)
  | Some (sanitizedEmail, sanitizedPhone) =>
      (* Ensure we have at least one valid identifier *)
      if negb (truthy sanitizedEmail) && negb (truthy sanitizedPhone) then
        mret (Return invalid_result)
      else
        let userDataToStore :=
          Build_StoredUserData EmptyString sanitizedEmail sanitizedPhone
            (metadata data) in
        '(pos, existsNum, returnedUserId) ←
          redis_eval_script script_insertUser
            (REDIS_SCRIPTS.insertUser
               WAITLIST_KEYS.waitlist WAITLIST_KEYS.emails
               WAITLIST_KEYS.phones WAITLIST_KEYS.users
               finalUserId (or_empty sanitizedEmail)
               (or_empty sanitizedPhone) waitlistLimit
               (JSON_stringify userDataToStore));
        if pos =? -1 then
          mret (Throw ("Waitlist is full (limit: " +:+ pretty waitlistLimit +:+ ")"))
        else
          (* Determine the correct user ID (new or existing) *)
          let actualUserId :=
            if existsNum =? 1 then returnedUserId else finalUserId in
          mret (Return {| id := actualUserId;
                          position := pos;
                          already_existed := existsNum =? 1 |})
  end.

End waitlistUtils.
End waitlistUtils.

(** ** Requests, responses and the Supabase client *)

(** A value of type [unknown] read from a request: a string, or something
    else of which only the truthiness matters. *)
Inductive unknown :=
| a_string (s : string)
| not_a_string (is_truthy : bool).

Definition js_truthy (v : unknown) : bool :=
  match v with
  | a_string s => negb (String.eqb s EmptyString)
  | not_a_string t => t
  end.

#[local] Set Warnings "-register-all".
Inductive json :=
| JBool (b : bool)
| JNum (n : Z)
| JStr (s : string)
| JObj (fields : list (string * json)).

(** [res.status(code).json(body)]; [res.json(body)] has status 200.  The
    [request_id] and [duration_ms] fields of [metadata] are left out. *)
Record Response := {
  status : Z;
  body : list (string * json)
}.

(** [OnboardingSettings] of [types.ts]. *)
Record OnboardingSettings := {
  settings_id : Z;
  signed_up_users : Z;
  signed_up_user_limit : Z;
  waitlist_limit : Z;
  invite_code_limit : Z;
  invite_code_length : Z;
  signup_cutoff : Z;
  allowed_registrations : string
}.

(** The [{ data, error }] pair a Supabase call resolves to. *)
Inductive rpc_response (A : Type) :=
| rpc_data (data : option A)
| rpc_error (message : string).
Arguments rpc_data {A} data.
Arguments rpc_error {A} message.

(** The three remote procedures, as the answers they give. *)
Record SupabaseClient := {
  check_user_exists : string → rpc_response bool;
  get_current_settings : rpc_response OnboardingSettings;
  increment_user_count : string → rpc_response bool
}.

(** ** [supabase/queries.ts] *)

Definition getCurrentOnboardingSettings (supabaseClient : SupabaseClient)
    : Task (completion OnboardingSettings) :=
  λ s, (match get_current_settings supabaseClient with
        | rpc_error message => Throw message
        | rpc_data None => Throw "No onboarding settings found"
        | rpc_data (Some data) => Return data
        end, s, [supabase_rpc rpc_get_current_settings]).

(** ** [utils/controller/userManagementUtils.ts] *)

Record UsernameValidationResult := {
  isValid : bool;
  sanitizedIdentifier : option string;
  error : option string
}.

Module userManagementUtils.
Section userManagementUtils.
Context `{Libraries}.

Definition validateAndSanitizeUsername (username : unknown)
    : UsernameValidationResult :=
  match username with
  | not_a_string _ =>
      {| isValid := false; sanitizedIdentifier := None;
         error := Some "Username required" |}
  | a_string identifier =>
      if String.eqb identifier EmptyString then
        {| isValid := false; sanitizedIdentifier := None;
           error := Some "Username required" |}
      else if validator_isEmail identifier then
        {| isValid := true;
           sanitizedIdentifier :=
             Some (String_trim (String_toLowerCase identifier));
           error := None |}
      else
        match parsePhoneNumberFromString identifier with
        | Some phoneNumber =>
            if negb (PhoneNumber.isValid phoneNumber) then
              {| isValid := false; sanitizedIdentifier := None;
                 error := Some "Invalid phone number format or number is not valid" |}
            else
              {| isValid := true;
                 sanitizedIdentifier := Some (PhoneNumber.number phoneNumber);
                 error := None |}
        | None =>
            {| isValid := false; sanitizedIdentifier := None;
               error := Some "Invalid username format (must be email or phone)" |}
        end
  end.

(** Any failure of the call counts as "does not exist". *)
Definition checkUserExists (supabaseClient : SupabaseClient)
    (identifier : string) : Task bool :=
  λ s, (match check_user_exists supabaseClient identifier with
        | rpc_error _ => false
        | rpc_data existsData => default false existsData
        end, s, [supabase_rpc (rpc_check_user_exists identifier)]).

Definition registerNewUser (supabaseClient : SupabaseClient)
    (identifier : string) : Task bool :=
  λ s, (match increment_user_count supabaseClient identifier with
        | rpc_error _ => false
        | rpc_data incrementData => default false incrementData
        end, s, [supabase_rpc (rpc_increment_user_count identifier)]).

Definition handleExistingUserRegistration (identifier : string)
    (waitlistPosition : Z) : Response :=
  {| status := 200;
     body := [("registered_signup", JBool true);
              ("on_waitlist", JBool (waitlistPosition >? 0));
              ("waitlist_position", JNum waitlistPosition);
              ("metadata",
               JObj [("message", JStr "User is already registered")])] |}.

Definition handleUserLimitReached (identifier : string)
    (settings : OnboardingSettings) (uuid : string) : Task Response :=
  waitlistResult ← waitlistUtils.insertUser
    {| username := identifier; metadata := None |}
    (waitlist_limit settings) uuid;
  match waitlistResult with
  | Return waitlistResult =>
      let has_id := negb (String.eqb (id waitlistResult) EmptyString) in
      mret {| status := 200;
              body := [("registered_signup", JBool false);
                       ("on_waitlist", JBool has_id);
                       ("waitlist_position", JNum (position waitlistResult));
                       ("metadata",
                        JObj [("message",
                               JStr (if has_id
                                     then "User limit reached, added/found on waitlist"
                                     else "User limit reached, failed to add to waitlist"));
                              ("already_existed_on_waitlist",
                               JBool (already_existed waitlistResult))])] |}
  | Throw _ =>
      mret {| status := 500;
              body := [("registered_signup", JBool false);
                       ("on_waitlist", JBool false);
                       ("waitlist_position", JNum 0);
                       ("metadata",
                        JObj [("error",
                               JStr "Failed to add to waitlist during user limit check")])] |}
  end.

Definition handleWaitlistOnlyRegistration (identifier : string)
    (settings : OnboardingSettings) (isUserOnWaitlist : bool)
    (waitlistPosition : Z) (uuid : string) : Task Response :=
  if negb isUserOnWaitlist then
    (* Add to waitlist if not already on it *)
    waitlistResult ← waitlistUtils.insertUser
      {| username := identifier; metadata := None |}
      (waitlist_limit settings) uuid;
    match waitlistResult with
    | Return waitlistResult =>
        mret {| status := 200;
                body := [("registered_signup", JBool false);
                         ("on_waitlist",
                          JBool (negb (String.eqb (id waitlistResult) EmptyString)));
                         ("waitlist_position", JNum (position waitlistResult));
                         ("metadata",
                          JObj [("message",
                                 JStr "Added to waitlist (waitlist only mode)");
                                ("already_existed_on_waitlist",
                                 JBool (already_existed waitlistResult))])] |}
    | Throw _ =>
        mret {| status := 500;
                body := [("registered_signup", JBool false);
                         ("on_waitlist", JBool false);
                         ("waitlist_position", JNum 0);
                         ("metadata",
                          JObj [("error",
                                 JStr "Failed to add to waitlist in waitlist-only mode")])] |}
    end
  else
    (* Already on waitlist but not eligible *)
    mret {| status := 200;
            body := [("registered_signup", JBool false);
                     ("on_waitlist", JBool true);
                     ("waitlist_position", JNum waitlistPosition);
                     ("metadata",
                      JObj [("message",
                             JStr "On waitlist, but not yet eligible for signup")])] |}.

(** [Some response] when the helper has answered and returned [true]
    (blocked), [None] when it returned [false]. *)
Definition checkWaitlistRegistrationBlocks (identifier : string)
    (waitlistPosition : Z) (settings : OnboardingSettings)
    (isUserOnWaitlist : bool) : option Response :=
  if isUserOnWaitlist then
    if signup_cutoff settings <? 0 then
      Some {| status := 200;
              body := [("registered_signup", JBool false);
                       ("on_waitlist", JBool true);
                       ("waitlist_position", JNum waitlistPosition);
                       ("metadata",
                        JObj [("message",
                               JStr "Signup currently closed for waitlist users (negative cutoff)")])] |}
    else if waitlistPosition >? signup_cutoff settings then
      Some {| status := 200;
              body := [("registered_signup", JBool false);
                       ("on_waitlist", JBool true);
                       ("waitlist_position", JNum waitlistPosition);
                       ("metadata",
                        JObj [("message",
                               JStr "On waitlist, but not yet eligible for signup based on cutoff")])] |}
    else None
  else None.

Definition attemptUserRegistration (supabaseClient : SupabaseClient)
    (identifier : string) (waitlistPosition : Z) (isUserOnWaitlist : bool)
    : Task Response :=
  registrationSuccess ← registerNewUser supabaseClient identifier;
  if registrationSuccess : bool then
    mret {| status := 200;
            body := [("registered_signup", JBool true);
                     ("on_waitlist", JBool isUserOnWaitlist);
                     ("waitlist_position", JNum waitlistPosition);
                     ("metadata",
                      JObj [("message",
                             JStr ("User successfully registered" +:+
                                   (if isUserOnWaitlist
                                    then " (was on waitlist)" else EmptyString)))])] |}
  else
    mret {| status := 500;
            body := [("registered_signup", JBool false);
                     ("on_waitlist", JBool isUserOnWaitlist);
                     ("waitlist_position", JNum waitlistPosition);
                     ("metadata",
                      JObj [("error",
                             JStr "Registration failed due to a database issue.")])] |}.

End userManagementUtils.
End userManagementUtils.

(** ** [controllers/userManagement/userManagementControllers.ts] *)

Module userManagementControllers.
Section userManagementControllers.
Context `{Libraries}.
Import userManagementUtils.

(** The 400 answer shared by the controllers when validation fails. *)
Definition invalid_input_response (validation : UsernameValidationResult)
    (fields : list (string * json)) : Response :=
  {| status := 400;
     body := fields ++
             [("metadata",
               JObj [("error",
                      JStr (if truthy (error validation)
                            then or_empty (error validation)
                            else "Invalid input"))])] |}.

Definition addToWaitlistController (username : unknown)
    (supabaseClient : SupabaseClient) (uuid : string) : Task Response :=
  if negb (js_truthy username) then
    mret {| status := 400;
            body := [("success", JBool false);
                     ("position", JNum 0);
                     ("already_existed", JBool false);
                     ("error", JStr "Username is required")] |}
  else
    let validation := validateAndSanitizeUsername username in
    if negb (isValid validation)
       || negb (truthy (sanitizedIdentifier validation)) then
      mret (invalid_input_response validation
              [("already_registered", JBool false);
               ("on_waitlist", JBool false);
               ("can_sign_up", JBool false);
               ("position", JNum 0)])
    else
      let identifier := or_empty (sanitizedIdentifier validation) in
      let internal_server_error :=
        {| status := 500;
           body := [("success", JBool false);
                    ("position", JNum 0);
                    ("error", JStr "Internal server error")] |} in
      settings ← getCurrentOnboardingSettings supabaseClient;
      match settings with
      | Throw _ => mret internal_server_error
      | Return settings =>
          result ← waitlistUtils.insertUser
            {| username := identifier; metadata := None |}
            (waitlist_limit settings) uuid;
          match result with
          | Throw _ => mret internal_server_error
          | Return result =>
              (* If validation failed *)
              if String.eqb (id result) EmptyString then
                mret {| status := 200;
                        body := [("success", JBool false);
                                 ("position", JNum 0);
                                 ("already_existed", JBool false)] |}
              else
                mret {| status := 200;
                        body := [("success", JBool true);
                                 ("position", JNum (position result));
                                 ("already_existed",
                                  JBool (already_existed result))] |}
          end
      end.

(** Line 314. *)
Definition canSignUp (settings : OnboardingSettings) (position : Z) : bool :=
  (signup_cutoff settings >=? 0) && (position <=? signup_cutoff settings).

Definition waitlistUserCanSignUpController (username : unknown)
    (supabaseClient : SupabaseClient) : Task Response :=
  let answer (already_registered on_waitlist can_sign_up : bool)
             (position : Z) (rest : list (string * json)) :=
    [("already_registered", JBool already_registered);
     ("on_waitlist", JBool on_waitlist);
     ("can_sign_up", JBool can_sign_up);
     ("position", JNum position)] ++ rest in
  if negb (js_truthy username) then
    mret {| status := 400;
            body := answer false false false 0
                      [("error", JStr "Username (email or phone) is required")] |}
  else
    let validation := validateAndSanitizeUsername username in
    if negb (isValid validation)
       || negb (truthy (sanitizedIdentifier validation)) then
      mret (invalid_input_response validation (answer false false false 0 []))
    else
      let identifier := or_empty (sanitizedIdentifier validation) in
      (* Step 1: Fetch initial state concurrently *)
      userExists ← checkUserExists supabaseClient identifier;
      userIsOnWaitlist ← waitlistUtils.isOnWaitlist identifier;
      settings ← getCurrentOnboardingSettings supabaseClient;
      match settings with
      | Throw _ =>
          mret {| status := 500;
                  body := answer false false false 0
                            [("error", JStr "Internal server error")] |}
      | Return settings =>
          if userExists : bool then
            position ← (if userIsOnWaitlist : bool
                        then waitlistUtils.getPositionByIdentifier identifier
                        else mret 0);
            mret {| status := 200;
                    body := answer true userIsOnWaitlist false position
                              [("metadata",
                                JObj [("message",
                                       JStr "User is already registered.")])] |}
          else if negb userIsOnWaitlist then
            mret {| status := 200; body := answer false false false 0 [] |}
          else
            position ← waitlistUtils.getPositionByIdentifier identifier;
            mret {| status := 200;
                    body := answer false true (canSignUp settings position)
                              position [] |}
      end.

Definition isOnWaitlistController (username : unknown) : Task Response :=
  if negb (js_truthy username) then
    mret {| status := 400;
            body := [("on_waitlist", JBool false);
                     ("error", JStr "Username (email or phone) is required")] |}
  else
    let validation := validateAndSanitizeUsername username in
    if negb (isValid validation)
       || negb (truthy (sanitizedIdentifier validation)) then
      mret (invalid_input_response validation
              [("already_registered", JBool false);
               ("on_waitlist", JBool false);
               ("can_sign_up", JBool false);
               ("position", JNum 0)])
    else
      let identifier := or_empty (sanitizedIdentifier validation) in
      userIsOnWaitlist ← waitlistUtils.isOnWaitlist identifier;
      mret {| status := 200;
              body := [("on_waitlist", JBool userIsOnWaitlist)] |}.

(** Lines 485-491. *)
Definition isUserOnWaitlist (waitlistPosition : Z) : bool :=
  waitlistPosition >? 0.

Definition isWaitlistEligible (settings : OnboardingSettings)
    (waitlistPosition : Z) : bool :=
  isUserOnWaitlist waitlistPosition
  && (signup_cutoff settings >? 0)
  && (waitlistPosition <=? signup_cutoff settings).

Definition userLimitReached (settings : OnboardingSettings) : bool :=
  (signed_up_user_limit settings >? 0)
  && (signed_up_users settings >=? signed_up_user_limit settings).

(** Step 3 of [registerUserController], lines 500-538. *)
Definition registerUserScenarios (supabaseClient : SupabaseClient)
    (identifier : string) (userExists : bool) (settings : OnboardingSettings)
    (waitlistPosition : Z) (uuid : string) : Task Response :=
  (* Scenario: User already exists *)
  if userExists then
    mret (handleExistingUserRegistration identifier waitlistPosition)
  (* Scenario: User limit reached *)
  else if userLimitReached settings then
    handleUserLimitReached identifier settings uuid
  (* Scenario: Registration is waitlist-only AND user is not eligible *)
  else if String.eqb (allowed_registrations settings) "waitlist"
          && negb (isWaitlistEligible settings waitlistPosition) then
    handleWaitlistOnlyRegistration identifier settings
      (isUserOnWaitlist waitlistPosition) waitlistPosition uuid
  else
    match checkWaitlistRegistrationBlocks identifier waitlistPosition
            settings (isUserOnWaitlist waitlistPosition) with
    | Some response => mret response (* Response already sent by helper *)
    | None =>
        (* Proceed with registration if not blocked *)
        attemptUserRegistration supabaseClient identifier waitlistPosition
          (isUserOnWaitlist waitlistPosition)
    end.

Definition registerUserController (rawUsername : unknown)
    (supabaseClient : SupabaseClient) (uuid : string) : Task Response :=
  (* Step 1: Validate input using helper *)
  let validation := validateAndSanitizeUsername rawUsername in
  if negb (isValid validation)
     || negb (truthy (sanitizedIdentifier validation)) then
    mret (invalid_input_response validation
            [("registered_signup", JBool false);
             ("on_waitlist", JBool false);
             ("waitlist_position", JNum 0)])
  else
    let identifier := or_empty (sanitizedIdentifier validation) in
    (* Step 2: Fetch initial state concurrently *)
    userExists ← checkUserExists supabaseClient identifier;
    settings ← getCurrentOnboardingSettings supabaseClient;
    waitlistPosition ← waitlistUtils.getPositionByIdentifier identifier;
    match settings with
    | Throw message =>
        mret {| status := 500;
                body := [("registered_signup", JBool false);
                         ("on_waitlist", JBool false);
                         ("waitlist_position", JNum 0);
                         ("metadata", JObj [("error", JStr message)])] |}
    | Return settings =>
        registerUserScenarios supabaseClient identifier userExists settings
          waitlistPosition uuid
    end.

End userManagementControllers.
End userManagementControllers.

(** ** Vocabulary of the specification, defined on the code above *)

(** An identity is a normalised email address or an E.164 phone number. *)
Inductive Identity :=
| Email (address : string)
| Phone (e164 : string).

(** The entry id the store has indexed for an identity, if any. *)
Definition IdentityIndex (s : store) (identity : Identity) : option string :=
  match identity with
  | Email address => emails s !! address
  | Phone e164 => phones s !! e164
  end.

(** The position [getPosition] reports for an entry id: its 1-based rank
    in the queue, [0] when it is not queued. *)
Definition positionOfEntry (s : store) (entryId : string) : Z :=
  REDIS_SCRIPTS.ipairs_find (queue s) entryId 1.

(** Outcomes of the registration flow. *)
Inductive CutoffReason := NegativeCutoff | PositionBeyondCutoff.

Inductive Outcome :=
| AlreadyRegistered
| CapacityExhausted
| WaitlistOnlyIneligible
| BlockedByCutoff (reason : CutoffReason)
| EligibleToRegister.

Inductive RegistrationMode := OPEN | WAITLIST_ONLY.

Record PolicySnapshot := {
  capacity : Z;
  registeredCount : Z;
  registrationCap : Z;
  signupCutoff : Z;
  registrationMode : RegistrationMode
}.

(** The policy snapshot that the onboarding settings carry. *)
Definition policy_of (settings : OnboardingSettings) : PolicySnapshot :=
  {| capacity := waitlist_limit settings;
     registeredCount := signed_up_users settings;
     registrationCap := signed_up_user_limit settings;
     signupCutoff := signup_cutoff settings;
     registrationMode :=
       if String.eqb (allowed_registrations settings) "waitlist"
       then WAITLIST_ONLY else OPEN |}.

(** The cutoff test in the specification's words: it is met by a queued
    identity ([position > 0]) whose position is within a non-negative
    cutoff. *)
Definition cutoff_eligible (policy : PolicySnapshot) (position : Z) : bool :=
  (position >? 0)
  && (signupCutoff policy >=? 0)
  && (position <=? signupCutoff policy).

(** The evaluation order in the specification's words, first match wins. *)
Definition evaluate_spec (alreadyRegisteredExternally : bool) (position : Z)
    (policy : PolicySnapshot) : Outcome :=
  if alreadyRegisteredExternally then AlreadyRegistered
  else if (registrationCap policy >? 0)
          && (registeredCount policy >=? registrationCap policy)
  then CapacityExhausted
  else if match registrationMode policy with
          | WAITLIST_ONLY => negb (cutoff_eligible policy position)
          | OPEN => false
          end
  then WaitlistOnlyIneligible
  else if (position >? 0) && negb (cutoff_eligible policy position)
  then BlockedByCutoff (if signupCutoff policy <? 0
                        then NegativeCutoff else PositionBeyondCutoff)
  else EligibleToRegister.

(** The hash and field under which an identity is indexed. *)
Definition identity_key (identity : Identity) : hkey * string :=
  match identity with
  | Email address => (waitlist_emails, address)
  | Phone e164 => (waitlist_phones, e164)
  end.

(** Reading a field of a JSON answer, and of its [metadata] object. *)
Fixpoint lookup_field (name : string) (fields : list (string * json))
    : option json :=
  match fields with
  | [] => None
  | (key, value) :: rest =>
      if String.eqb key name then Some value else lookup_field name rest
  end.

Definition field (name : string) (response : Response) : option json :=
  lookup_field name (body response).

Definition metadata_field (name : string) (response : Response)
    : option json :=
  match field "metadata" response with
  | Some (JObj fields) => lookup_field name fields
  | _ => None
  end.


Section Flow.
Context `{Libraries}.
Import userManagementUtils userManagementControllers.

(** The identity that [insertUser] derives from [data.username] (lines
    104-128), [None] when it takes one of its two early returns. *)
Definition normalize (raw : string) : option Identity :=
  let username := String_trim raw in
  if validator_isEmail username then
    let address := String_toLowerCase username in
    if String.eqb address EmptyString then None else Some (Email address)
  else
    match parsePhoneNumberFromString username with
    | Some phoneNumber =>
        if PhoneNumber.isValid phoneNumber then
          if String.eqb (PhoneNumber.number phoneNumber) EmptyString then None
          else Some (Phone (PhoneNumber.number phoneNumber))
        else None
    | None => None
    end.

(** What [insertUser] serialises and stores for an identity. *)
Definition stored_record (identity : Identity)
    (metadata : option (gmap string JSONValue)) : string :=
  JSON_stringify
    match identity with
    | Email address => Build_StoredUserData EmptyString (Some address) None metadata
    | Phone e164 => Build_StoredUserData EmptyString None (Some e164) metadata
    end.

(** The operations of the admission store. *)
Inductive operation :=
| op_insertUser (data : UserData JSONValue) (waitlistLimit : Z)
    (finalUserId : string)
| op_getPositionByIdentifier (identifier : string)
| op_isOnWaitlist (identifier : string)
| op_getPosition (id : string).

(** The store an operation leaves. *)
Definition after (op : operation) (s : store) : store :=
  match op with
  | op_insertUser data waitlistLimit finalUserId =>
      (waitlistUtils.insertUser data waitlistLimit finalUserId s).1.2
  | op_getPositionByIdentifier identifier =>
      (waitlistUtils.getPositionByIdentifier identifier s).1.2
  | op_isOnWaitlist identifier =>
      (waitlistUtils.isOnWaitlist identifier s).1.2
  | op_getPosition id =>
      (waitlistUtils.getPosition id s).1.2
  end.

Definition run (ops : list operation) (s : store) : store :=
  foldl (λ s op, after op s) s ops.

(** The capacity an operation is invoked with is [K]. *)
Definition with_capacity (K : Z) (op : operation) : Prop :=
  match op with
  | op_insertUser _ waitlistLimit _ => waitlistLimit = K
  | _ => True
  end.

(** The ids drawn by [uuidv4()] along a sequence of operations. *)
Definition drawn_ids (ops : list operation) : list string :=
  flat_map (λ op, match op with
                  | op_insertUser _ _ finalUserId => [finalUserId]
                  | _ => []
                  end) ops.

(** The invariant behind the capacity bound: the queue is within the
    capacity and holds one entry per indexed identity. *)
Definition within (K : Z) (s : store) : Prop :=
  Z.of_nat (length (queue s)) ≤ K
  ∧ (size (emails s) + size (phones s))%nat = length (queue s).

(** The invariant behind position density: no entry id is queued twice
    or is about to be drawn again, and every indexed id is queued. *)
Definition distinct (rest : list string) (s : store) : Prop :=
  NoDup (queue s ++ rest)
  ∧ ∀ identity entryId,
      IdentityIndex s identity = Some entryId → entryId ∈ queue s.

(** The controllers' validation lets the request through, with this
    identifier. *)
Definition accepted (username : unknown) (identifier : string) : Prop :=
  isValid (validateAndSanitizeUsername username) = true
  ∧ sanitizedIdentifier (validateAndSanitizeUsername username)
    = Some identifier
  ∧ identifier ≠ EmptyString.

(** What step 2 of [registerUserController] fetches: whether the registry
    knows the identifier, its waitlist position, and the trace of the
    three reads. *)
Definition alreadyRegistered (supabaseClient : SupabaseClient)
    (identifier : string) : bool :=
  (checkUserExists supabaseClient identifier empty_store).1.1.

Definition positionOf (s : store) (identifier : string) : Z :=
  (waitlistUtils.getPositionByIdentifier identifier s).1.1.

Definition fetched (s : store) (identifier : string) : list event :=
  [supabase_rpc (rpc_check_user_exists identifier);
   supabase_rpc rpc_get_current_settings]
  ++ (waitlistUtils.getPositionByIdentifier identifier s).2.

(** Two more invariants of the store: every indexed entry id is queued,
    and every queued entry id has a stored record. *)
Definition indexed_queued (s : store) : Prop :=
  ∀ identity entryId,
    IdentityIndex s identity = Some entryId → entryId ∈ queue s.

Definition recorded (s : store) : Prop :=
  ∀ entryId, entryId ∈ queue s → is_Some (users s !! entryId).

(** The request is turned down before any lookup: the username is missing
    or validation fails. *)
Definition rejected (username : unknown) : Prop :=
  ∀ identifier, ¬ accepted username identifier.

(** The branch that step 3 of [registerUserController] takes, with the
    two blocks of [checkWaitlistRegistrationBlocks] told apart. *)
Definition evaluate (userExists : bool) (waitlistPosition : Z)
    (settings : OnboardingSettings) : Outcome :=
  if userExists then AlreadyRegistered
  else if userLimitReached settings then CapacityExhausted
  else if String.eqb (allowed_registrations settings) "waitlist"
          && negb (isWaitlistEligible settings waitlistPosition)
  then WaitlistOnlyIneligible
  else if isUserOnWaitlist waitlistPosition then
    if signup_cutoff settings <? 0 then BlockedByCutoff NegativeCutoff
    else if waitlistPosition >? signup_cutoff settings
    then BlockedByCutoff PositionBeyondCutoff
    else EligibleToRegister
  else EligibleToRegister.

(** The answer sent for each reason of a cutoff block. *)
Definition blocked_response (reason : CutoffReason) (waitlistPosition : Z)
    : Response :=
  {| status := 200;
     body := [("registered_signup", JBool false);
              ("on_waitlist", JBool true);
              ("waitlist_position", JNum waitlistPosition);
              ("metadata",
               JObj [("message",
                      JStr match reason with
                           | NegativeCutoff =>
                               "Signup currently closed for waitlist users (negative cutoff)"
                           | PositionBeyondCutoff =>
                               "On waitlist, but not yet eligible for signup based on cutoff"
                           end)])] |}.

(** The handler that serves each outcome. *)
Definition act (outcome : Outcome) (supabaseClient : SupabaseClient)
    (identifier : string) (settings : OnboardingSettings)
    (waitlistPosition : Z) (uuid : string) : Task Response :=
  match outcome with
  | AlreadyRegistered =>
      mret (handleExistingUserRegistration identifier waitlistPosition)
  | CapacityExhausted =>
      handleUserLimitReached identifier settings uuid
  | WaitlistOnlyIneligible =>
      handleWaitlistOnlyRegistration identifier settings
        (isUserOnWaitlist waitlistPosition) waitlistPosition uuid
  | BlockedByCutoff reason =>
      mret (blocked_response reason waitlistPosition)
  | EligibleToRegister =>
      attemptUserRegistration supabaseClient identifier waitlistPosition
        (isUserOnWaitlist waitlistPosition)
  end.

(** The two kinds of mutating event: the registration commit and a run
    of the admission script. *)
Definition is_commit (e : event) : bool :=
  match e with
  | supabase_rpc (rpc_increment_user_count _) => true
  | _ => false
  end.

Definition is_admission (e : event) : bool :=
  match e with
  | redis_eval script_insertUser _ => true
  | _ => false
  end.

Definition commits (t : list event) : nat :=
  length (filter (λ e, is_commit e = true) t).

Definition admissions (t : list event) : nat :=
  length (filter (λ e, is_admission e = true) t).

End Flow.

(** ** The admission contract in the specification's words *)

(** The failure of a full waitlist, as [insertUser] throws it. *)
Definition Full (capacity : Z) : completion InsertResult :=
  Throw ("Waitlist is full (limit: " +:+ pretty capacity +:+ ")").

(** Index an identity under an entry id. *)
Definition index_identity (identity : Identity) (entryId : string)
    (s : store) : store :=
  match identity with
  | Email address => hash_set waitlist_emails address entryId s
  | Phone e164 => hash_set waitlist_phones e164 entryId s
  end.

(** [enqueueOrLookup(identity, metadata, capacity)]: an indexed identity
    gets its entry id and position back and its record overwritten; a new
    one fails when the queue has reached the capacity, and is otherwise
    appended, indexed and recorded, at the position that is the length of
    the queue after the append. *)
Definition enqueueOrLookup_spec (identity : Identity) (record : string)
    (capacity : Z) (newId : string) (s : store)
    : completion InsertResult * store :=
  match IdentityIndex s identity with
  | Some entryId =>
      (Return {| id := entryId;
                 position := positionOfEntry s entryId;
                 already_existed := true |},
       hash_set waitlist_users entryId record s)
  | None =>
      if Z.of_nat (length (queue s)) >=? capacity then (Full capacity, s)
      else
        let appended :=
          Store (queue s ++ [newId]) (users s) (emails s) (phones s) in
        (Return {| id := newId;
                   position := Z.of_nat (length (queue appended));
                   already_existed := false |},
         hash_set waitlist_users newId record
           (index_identity identity newId appended))
  end.

(** The commands that one admission sends to Redis. *)
Definition admission_commands (identity : Identity) (record : string)
    (capacity : Z) (newId : string) (s : store) : list command :=
  let '(k, field) := identity_key identity in
  match IdentityIndex s identity with
  | Some entryId =>
      [HGET k field; LRANGE waitlist_list 0 (-1);
       HSET waitlist_users entryId record]
  | None =>
      if Z.of_nat (length (queue s)) >=? capacity
      then [HGET k field; LLEN waitlist_list]
      else [HGET k field; LLEN waitlist_list;
            RPUSH waitlist_list newId;
            HSET k field newId;
            HSET waitlist_users newId record]
  end.

(** The [email] and [phone] arguments that [insertUser] hands to its
    script for an identity, and the table the script answers with. *)
Definition script_ARGV (identity : Identity) : string * string :=
  match identity with
  | Email address => (address, EmptyString)
  | Phone e164 => (EmptyString, e164)
  end.

Definition admission_reply (identity : Identity) (capacity : Z)
    (newId : string) (s : store) : Z * Z * string :=
  match IdentityIndex s identity with
  | Some entryId => (positionOfEntry s entryId, 1, entryId)
  | None =>
      if Z.of_nat (length (queue s)) >=? capacity
      then (-1, -1, EmptyString)
      else (Z.of_nat (length (queue s)) + 1, 0, newId)
  end.

(** ** A small instance of the libraries, to run the model on examples *)

Module Sample.

Fixpoint has_at (s : string) : bool :=
  match s with
  | EmptyString => false
  | String c rest => Ascii.eqb c "@"%char || has_at rest
  end.

Definition lower (c : ascii) : ascii :=
  let n := nat_of_ascii c in
  if ((65 <=? n) && (n <=? 90))%nat then ascii_of_nat (n + 32) else c.

Fixpoint lowercase (s : string) : string :=
  match s with
  | EmptyString => EmptyString
  | String c rest => String (lower c) (lowercase rest)
  end.

(** A number is parsed when it starts with [+], and is valid when at
    least seven characters follow. *)
Definition parse (s : string) : option PhoneNumber.t :=
  match s with
  | String "+"%char rest =>
      Some {| PhoneNumber.isValid := (7 <=? String.length rest)%nat;
              PhoneNumber.number := s |}
  | _ => None
  end.

Definition stringify (d : StoredUserData string) : string :=
  "{email:" +:+ or_empty (stored_email _ d) +:+
  ",phone:" +:+ or_empty (stored_phone _ d) +:+ "}".

Definition libraries : Libraries :=
  {| JSONValue := string;
     validator_isEmail := has_at;
     parsePhoneNumberFromString := parse;
     String_trim := λ s, s;
     String_toLowerCase := lowercase;
     JSON_stringify := stringify |}.

(** A validator that only knows one address, written with a capital:
    the controllers' validation lets it through, and [insertUser], which
    validates the lower-cased form again, turns it down. *)
Definition case_sensitive : Libraries :=
  {| JSONValue := string;
     validator_isEmail := String.eqb "A@x.com";
     parsePhoneNumberFromString := parse;
     String_trim := λ s, s;
     String_toLowerCase := lowercase;
     JSON_stringify := stringify |}.

Definition settings (cutoff : Z) (mode : string) : OnboardingSettings :=
  {| settings_id := 1;
     signed_up_users := 3;
     signed_up_user_limit := 0;
     waitlist_limit := 2;
     invite_code_limit := 0;
     invite_code_length := 8;
     signup_cutoff := cutoff;
     allowed_registrations := mode |}.

(** A registry in which nobody is registered and commits succeed. *)
Definition supabase (s : OnboardingSettings) : SupabaseClient :=
  {| check_user_exists := λ _, rpc_data (Some false);
     get_current_settings := rpc_data (Some s);
     increment_user_count := λ _, rpc_data (Some true) |}.

(** A registry that knows every identifier. *)
Definition supabase_registered (s : OnboardingSettings) : SupabaseClient :=
  {| check_user_exists := λ _, rpc_data (Some true);
     get_current_settings := rpc_data (Some s);
     increment_user_count := λ _, rpc_data (Some true) |}.

(** The store after ["a@x.com"] has been admitted as entry ["u1"]. *)
Definition one_queued : store :=
  Store ["u1"] {["u1" := "{email:a@x.com,phone:}"]}
        {["a@x.com" := "u1"]} ∅.


(** Three requests to join. *)
Definition a_at_x : UserData (@JSONValue libraries) :=
  {| username := "a@x.com"; metadata := None |}.
Definition b_at_x : UserData (@JSONValue libraries) :=
  {| username := "b@x.com"; metadata := None |}.
Definition c_at_x : UserData (@JSONValue libraries) :=
  {| username := "c@x.com"; metadata := None |}.

End Sample.

(** ** The query side: [constants.ts] and [utils/controller/ragControllerUtils.ts] *)

(** [s.split(sep)] for a separator of one character. *)
Fixpoint split (sep : ascii) (s : string) : list string :=
  match s with
  | EmptyString => [EmptyString]
  | String c rest =>
      if Ascii.eqb c sep then EmptyString :: split sep rest
      else match split sep rest with
           | piece :: pieces => String c piece :: pieces
           | [] => [String c EmptyString]
           end
  end.

(** How often a character occurs in a string. *)
Fixpoint occurrences (c : ascii) (s : string) : nat :=
  match s with
  | EmptyString => 0
  | String c' rest =>
      (if Ascii.eqb c' c then 1 else 0) + occurrences c rest
  end.

(** The query fields of the request that [processRAGParams] reads itself. *)
Record RagQuery := {
  query_hashtags : option string;
  query_secondary_hashtags : option string;
  query_similarity_threshold : option string;
  query_max_results : option string
}.

(** What a successful [ragQuerySchema.safeParse] hands over. *)
Record ParsedQuery := {
  parsed_user_id : string;
  parsed_text : string;
  parsed_language_code : string
}.

(** The numbers and libraries of the query side: JavaScript numbers with
    [parseFloat], [parseInt] and truthiness, the defaults [0.75] and [3],
    the embedding vectors, [franc], and the outcome of validating the
    query against the zod schema. *)
Class RagLibraries := {
  Number : Type;
  Embedding : Type;
  parseFloat : option string → Number;
  parseInt : option string → Number;
  Number_truthy : Number → bool;
  DEFAULT_SIMILARITY_THRESHOLD : Number;
  DEFAULT_MAX_RESULTS : Number;
  franc : string → string;
  ragQuerySchema_safeParse : RagQuery → option ParsedQuery
}.

Module constants.

Definition SUPPORTED_LANGUAGES : list string :=
  ["en"; "fr"; "de"; "hi"; "it"; "pt"; "es"; "th"; "zh"; "ko"; "ja"].

Definition LANGUAGE_CODE_MAP : gmap string string :=
  list_to_map
    [("eng", "en"); ("fra", "fr"); ("deu", "de"); ("hin", "hi");
     ("ita", "it"); ("por", "pt"); ("spa", "es"); ("tha", "th");
     ("cmn", "zh"); ("kor", "ko"); ("jpn", "ja")].

(** One entry of [RAG_CONTROLLER_RPC_FUNCTIONS]: endpoint name, message
    for invalid parameters, remote procedure, and whether hashtags are
    used. *)
Definition RAG_CONTROLLER_RPC_FUNCTIONS
    : list (string * (string * string * string * bool)) :=
  [("hybridRAG",
    ("hybrid-rag", "user_id and text parameters are required",
     "hybrid_search_with_penalties", false));
   ("semanticRAG",
    ("semantic-rag", "user_id parameter is required",
     "search_similar_content_with_penalties", false));
   ("semanticRAGWithHashtags",
    ("semantic-rag-with-hashtags",
     "user_id and hashtags parameters are required",
     "search_similar_content_with_hashtags_and_penalties", true));
   ("hybridRAGWithHashtags",
    ("hybrid-rag-with-hashtags",
     "user_id, text, and hashtags parameters are required",
     "hybrid_search_with_hashtags_and_penalties", true))].

End constants.

(** [ProcessedRAGParams] of [types.ts]. *)
Record ProcessedRAGParams `{RagLibraries} := {
  user_id : string;
  text : string;
  language_code : string;
  similarity_threshold : Number;
  max_results : Number;
  hashtags : list string;
  secondaryHashtagGroups : list (list string);
  secondaryHashtags : list string;
  hashtagGroups : list Z
}.

(** A call of a remote procedure of the [content_data] schema, with its
    named arguments. *)
Inductive rpc_arg `{RagLibraries} :=
| arg_string (s : string)
| arg_strings (l : list string)
| arg_groups (l : list Z)
| arg_number (n : Number)
| arg_embedding (e : Embedding).

Record rpc_call `{RagLibraries} := {
  rpc_schema : string;
  rpc_function : string;
  rpc_args : list (string * rpc_arg)
}.

Module queries.
Section queries.
Context `{RagLibraries}.

Definition getSemanticRAGWithHashtags (hashtags secondaryHashtags : list string)
    (hashtagGroups : list Z) (queryEmbedding : Embedding)
    (max_results : Number) (user_id : string) (similarity_threshold : Number)
    (language_code rpcFunctionName : string) : rpc_call :=
  {| rpc_schema := "content_data";
     rpc_function := rpcFunctionName;
     rpc_args := [("hashtags", arg_strings hashtags);
                  ("secondary_hashtags", arg_strings secondaryHashtags);
                  ("hashtag_groups", arg_groups hashtagGroups);
                  ("max_results", arg_number max_results);
                  ("p_user_id", arg_string user_id);
                  ("query_embedding", arg_embedding queryEmbedding);
                  ("similarity_threshold", arg_number similarity_threshold);
                  ("p_language_code", arg_string language_code)] |}.

Definition getHybridRAGWithHashtags (hashtags secondaryHashtags : list string)
    (hashtagGroups : list Z) (queryEmbedding : Embedding) (text : string)
    (max_results : Number) (user_id : string) (similarity_threshold : Number)
    (language_code rpcFunctionName : string) : rpc_call :=
  {| rpc_schema := "content_data";
     rpc_function := rpcFunctionName;
     rpc_args := [("hashtags", arg_strings hashtags);
                  ("secondary_hashtags", arg_strings secondaryHashtags);
                  ("hashtag_groups", arg_groups hashtagGroups);
                  ("query_text", arg_string text);
                  ("max_results", arg_number max_results);
                  ("p_user_id", arg_string user_id);
                  ("query_embedding", arg_embedding queryEmbedding);
                  ("similarity_threshold", arg_number similarity_threshold);
                  ("p_language_code", arg_string language_code)] |}.

Definition getSemanticRAGWithoutHashtags (queryEmbedding : Embedding)
    (max_results : Number) (user_id language_code : string)
    (similarity_threshold : Number) (rpcFunctionName : string) : rpc_call :=
  {| rpc_schema := "content_data";
     rpc_function := rpcFunctionName;
     rpc_args := [("p_user_id", arg_string user_id);
                  ("query_embedding", arg_embedding queryEmbedding);
                  ("p_language_code", arg_string language_code);
                  ("similarity_threshold", arg_number similarity_threshold);
                  ("max_results", arg_number max_results)] |}.

Definition getHybridRAGWithoutHashtags (queryEmbedding : Embedding)
    (max_results : Number) (user_id text language_code : string)
    (similarity_threshold : Number) (rpcFunctionName : string) : rpc_call :=
  {| rpc_schema := "content_data";
     rpc_function := rpcFunctionName;
     rpc_args := [("p_user_id", arg_string user_id);
                  ("query_embedding", arg_embedding queryEmbedding);
                  ("query_text", arg_string text);
                  ("p_language_code", arg_string language_code);
                  ("similarity_threshold", arg_number similarity_threshold);
                  ("max_results", arg_number max_results)] |}.

End queries.
End queries.

Module ragControllerUtils.
Section ragControllerUtils.
Context `{RagLibraries}.
Import constants.

Definition processRAGParams (query : RagQuery)
    : completion ProcessedRAGParams :=
  match ragQuerySchema_safeParse query with
  | None => Throw "Invalid query parameters"
  | Some parsed =>
      (* Process primary hashtags (comma-separated) *)
      let hashtags :=
        match query_hashtags query with
        | Some raw => split "," raw
        | None => []
        end in
      (* Process secondary hashtag groups *)
      let secondaryHashtagGroups :=
        match query_secondary_hashtags query with
        | Some raw =>
            map (λ group, if String.eqb group EmptyString then []
                          else split "," group)
                (split "|" raw)
        | None => []
        end in
      (* Set default values for optional parameters *)
      let similarity_threshold :=
        let parsedFloat := parseFloat (query_similarity_threshold query) in
        if Number_truthy parsedFloat then parsedFloat
        else DEFAULT_SIMILARITY_THRESHOLD in
      let max_results :=
        let parsedInt := parseInt (query_max_results query) in
        if Number_truthy parsedInt then parsedInt
        else DEFAULT_MAX_RESULTS in
      (* Process secondary hashtags into flat arrays for database queries *)
      let secondaryHashtags := concat secondaryHashtagGroups in
      let hashtagGroups :=
        concat (imap (λ idx group,
                        replicate (length group) (Z.of_nat idx + 1))
                     secondaryHashtagGroups) in
      Return {| user_id := parsed_user_id parsed;
                text := parsed_text parsed;
                language_code := parsed_language_code parsed;
                similarity_threshold := similarity_threshold;
                max_results := max_results;
                hashtags := hashtags;
                secondaryHashtagGroups := secondaryHashtagGroups;
                secondaryHashtags := secondaryHashtags;
                hashtagGroups := hashtagGroups |}
  end.

Definition validateLanguage (text requestedLanguage : string) : string :=
  (* Language Detection *)
  let detectedLang := franc text in
  (* Language Code Mapping *)
  let detectedLanguage := LANGUAGE_CODE_MAP !! detectedLang in
  (* Language Validation *)
  if truthy detectedLanguage
     && bool_decide (or_empty detectedLanguage ∈ SUPPORTED_LANGUAGES)
  then or_empty detectedLanguage
  (* Fallback to Requested Language *)
  else requestedLanguage.

(** The call that is issued, or the error thrown for a procedure name
    that does not fit the kind of query. *)
Definition executeRAGQuery (params : ProcessedRAGParams)
    (queryEmbedding : Embedding) (rpcFunctionName : string)
    (useHashtags : bool) : completion rpc_call :=
  if useHashtags then
    if String.eqb rpcFunctionName
         "search_similar_content_with_hashtags_and_penalties" then
      Return (queries.getSemanticRAGWithHashtags
                (hashtags params) (secondaryHashtags params)
                (hashtagGroups params) queryEmbedding (max_results params)
                (user_id params) (similarity_threshold params)
                (language_code params) rpcFunctionName)
    else if String.eqb rpcFunctionName
              "hybrid_search_with_hashtags_and_penalties" then
      Return (queries.getHybridRAGWithHashtags
                (hashtags params) (secondaryHashtags params)
                (hashtagGroups params) queryEmbedding (text params)
                (max_results params) (user_id params)
                (similarity_threshold params) (language_code params)
                rpcFunctionName)
    else Throw "Internal server error: Invalid RAG configuration"
  else
    if String.eqb rpcFunctionName "search_similar_content_with_penalties" then
      Return (queries.getSemanticRAGWithoutHashtags
                queryEmbedding (max_results params) (user_id params)
                (language_code params) (similarity_threshold params)
                rpcFunctionName)
    else if String.eqb rpcFunctionName "hybrid_search_with_penalties" then
      Return (queries.getHybridRAGWithoutHashtags
                queryEmbedding (max_results params) (user_id params)
                (text params) (language_code params)
                (similarity_threshold params) rpcFunctionName)
    else Throw "Internal server error: Invalid RAG configuration".

End ragControllerUtils.
End ragControllerUtils.

(** A small instance of the query-side libraries: numbers are integers,
    [0] standing for a failed parse, and every query passes the schema. *)
Module SampleRag.

Definition libraries : RagLibraries :=
  {| Number := Z;
     Embedding := list Z;
     parseFloat := λ _, 0;
     parseInt := λ _, 0;
     Number_truthy := λ n, negb (n =? 0);
     DEFAULT_SIMILARITY_THRESHOLD := 75;
     DEFAULT_MAX_RESULTS := 3;
     franc := λ text, if String.eqb text "bonjour tout le monde"
                      then "fra" else "und";
     ragQuerySchema_safeParse := λ _,
       Some {| parsed_user_id := "user";
               parsed_text := "bonjour tout le monde";
               parsed_language_code := "en" |} |}.

Definition query (hashtags secondary : option string) : RagQuery :=
  {| query_hashtags := hashtags;
     query_secondary_hashtags := secondary;
     query_similarity_threshold := None;
     query_max_results := None |}.

End SampleRag.

(** * Properties *)

(** Unfold the sequencing of scripts and of tasks. *)
Ltac unfold_monads :=
  unfold redis_eval_script, mbind, mret, Task_bind, Task_ret, Script_bind,
    Script_ret, Redis.bind, Redis.ret.

(** ** The position scan of the scripts *)

Section ipairs.
Import REDIS_SCRIPTS.

Lemma ipairs_find_notin (items : list string) id i :
  id ∉ items → ipairs_find items id i = 0.
Proof.
  revert i. induction items as [|item rest IH]; intros i Hnotin; [done|].
  simpl. apply not_elem_of_cons in Hnotin as [Hne Hrest].
  destruct (String.eqb_spec item id) as [->|_]; [done|]. by apply IH.
Qed.

Lemma ipairs_find_in (items : list string) id i :
  id ∈ items →
  ∃ n : nat, items !! n = Some id
             ∧ (∀ m : nat, (m < n)%nat → items !! m ≠ Some id)
             ∧ ipairs_find items id i = i + Z.of_nat n.
Proof.
  revert i. induction items as [|item rest IH]; intros i Hin.
  - by apply elem_of_nil in Hin.
  - simpl. destruct (String.eqb_spec item id) as [->|Hne].
    + exists 0%nat. split; [done|]. split; [lia|]. lia.
    + apply elem_of_cons in Hin as [->|Hin]; [done|].
      destruct (IH (i + 1) Hin) as (n & Hn & Hfirst & Hpos).
      exists (S n). split; [done|]. split; [|lia].
      intros [|m] Hm; simpl; [congruence|]. apply Hfirst. lia.
Qed.

Lemma ipairs_find_app_in (items more : list string) id i :
  id ∈ items → ipairs_find (items ++ more) id i = ipairs_find items id i.
Proof.
  revert i. induction items as [|item rest IH]; intros i Hin.
  - by apply elem_of_nil in Hin.
  - simpl. destruct (String.eqb_spec item id) as [->|Hne]; [done|].
    apply elem_of_cons in Hin as [->|Hin]; [done|]. by apply IH.
Qed.

Lemma ipairs_find_app_fresh (items : list string) id i :
  id ∉ items → ipairs_find (items ++ [id]) id i = i + Z.of_nat (length items).
Proof.
  revert i. induction items as [|item rest IH]; intros i Hnotin; simpl.
  - rewrite String.eqb_refl. lia.
  - apply not_elem_of_cons in Hnotin as [Hne Hrest].
    destruct (String.eqb_spec item id) as [->|_]; [done|].
    rewrite IH by done. lia.
Qed.

Lemma ipairs_find_NoDup (items : list string) i :
  NoDup items →
  map (λ id, ipairs_find items id i) items
  = map (λ n : nat, i + Z.of_nat n) (seq 0 (length items)).
Proof.
  revert i. induction items as [|item rest IH]; intros i Hnd; [done|].
  apply NoDup_cons in Hnd as [Hnotin Hnd]. simpl.
  rewrite String.eqb_refl. f_equal; [lia|].
  transitivity (map (λ id, ipairs_find rest id (i + 1)) rest).
  - apply map_ext_in. intros id Hin.
    destruct (String.eqb_spec item id) as [->|_]; [|done].
    apply list_elem_of_In in Hin. done.
  - rewrite IH by done. rewrite <- seq_shift, map_map.
    apply map_ext. intros n. lia.
Qed.

Lemma ipairs_find_nonneg (items : list string) id i :
  0 ≤ i → 0 ≤ ipairs_find items id i.
Proof.
  revert i. induction items as [|item rest IH]; intros i Hi; simpl; [done|].
  destruct (String.eqb item id); [done|]. apply IH. lia.
Qed.
End ipairs.

(** ** [insertUser] against the admission contract *)

Section Admission.
Context `{Libraries}.
Import waitlistUtils.

(** One run of the admission script for an identity. *)
Lemma insertUser_script_run identity capacity newId record s :
  (identity_key identity).2 ≠ EmptyString →
  REDIS_SCRIPTS.insertUser WAITLIST_KEYS.waitlist WAITLIST_KEYS.emails
    WAITLIST_KEYS.phones WAITLIST_KEYS.users newId
    (script_ARGV identity).1 (script_ARGV identity).2 capacity record s
  = (admission_reply identity capacity newId s,
     (enqueueOrLookup_spec identity record capacity newId s).2,
     admission_commands identity record capacity newId s).
Proof.
  intros Hne%String.eqb_neq.
  unfold REDIS_SCRIPTS.insertUser, admission_reply, enqueueOrLookup_spec,
    admission_commands.
  unfold_monads.
  destruct identity as [address|e164]; simpl in *; rewrite Hne; simpl.
  - destruct (emails s !! address) as [entryId|]; simpl; [done|].
    by destruct (Z.of_nat (length (queue s)) >=? capacity).
  - destruct (phones s !! e164) as [entryId|]; simpl; [done|].
    by destruct (Z.of_nat (length (queue s)) >=? capacity).
Qed.

(** The reply [-1] is the reply of a full waitlist and of nothing else. *)
Lemma admission_reply_full identity capacity newId s :
  (admission_reply identity capacity newId s).1.1 = -1
  ↔ IdentityIndex s identity = None
    ∧ capacity ≤ Z.of_nat (length (queue s)).
Proof.
  unfold admission_reply, positionOfEntry.
  destruct (IdentityIndex s identity) as [entryId|]; simpl.
  - pose proof (ipairs_find_nonneg (queue s) entryId 1 ltac:(lia)).
    split; [lia|]. by intros [[=] _].
  - destruct (Z.geb_spec (Z.of_nat (length (queue s))) capacity); simpl;
      (split; [intros ?|intros [_ ?]]); done || lia.
Qed.

Lemma normalize_key raw identity :
  normalize raw = Some identity → (identity_key identity).2 ≠ EmptyString.
Proof.
  unfold normalize. intros Hn.
  destruct (validator_isEmail _).
  - destruct (String.eqb_spec (String_toLowerCase (String_trim raw))
                EmptyString); [done|].
    by injection Hn as <-.
  - destruct (parsePhoneNumberFromString _) as [pn|]; [|done].
    destruct (PhoneNumber.isValid pn); [|done].
    destruct (String.eqb_spec (PhoneNumber.number pn) EmptyString); [done|].
    by injection Hn as <-.
Qed.

Lemma insertUser_invalid data waitlistLimit finalUserId s :
  normalize (username data) = None →
  insertUser data waitlistLimit finalUserId s = (Return invalid_result, s, []).
Proof.
  unfold normalize, insertUser, sanitize.
  destruct (validator_isEmail _).
  - destruct (String.eqb (String_toLowerCase _) EmptyString) eqn:Heq;
      [|done].
    intros _. simpl. by rewrite Heq.
  - destruct (parsePhoneNumberFromString _) as [pn|]; [|done].
    destruct (PhoneNumber.isValid pn); [|done].
    destruct (String.eqb (PhoneNumber.number pn) EmptyString) eqn:Heq;
      [|done].
    intros _. simpl. by rewrite Heq.
Qed.

(** From the reply of the script to the result of [insertUser]. *)
Lemma insertUser_completion identity capacity newId record s :
  (let '(pos, existsNum, returnedUserId) :=
     admission_reply identity capacity newId s in
   if pos =? -1 then Full capacity
   else Return {| id := if existsNum =? 1 then returnedUserId else newId;
                  position := pos;
                  already_existed := existsNum =? 1 |})
  = (enqueueOrLookup_spec identity record capacity newId s).1.
Proof.
  pose proof (admission_reply_full identity capacity newId s) as Hfull.
  unfold admission_reply, enqueueOrLookup_spec in *.
  destruct (IdentityIndex s identity) as [entryId|]; simpl in *.
  - destruct (Z.eqb_spec (positionOfEntry s entryId) (-1)) as [Hm|_];
      [by apply Hfull in Hm as [[=] _]|done].
  - destruct (Z.geb_spec (Z.of_nat (length (queue s))) capacity);
      simpl; [done|].
    destruct (Z.eqb_spec (Z.of_nat (length (queue s)) + 1) (-1)); [lia|].
    simpl. by rewrite length_app, Nat2Z.inj_add.
Qed.

Lemma insertUser_valid data waitlistLimit finalUserId s identity :
  normalize (username data) = Some identity →
  insertUser data waitlistLimit finalUserId s =
    (enqueueOrLookup_spec identity
       (stored_record identity (metadata data)) waitlistLimit finalUserId s,
     [redis_eval script_insertUser
        (admission_commands identity
           (stored_record identity (metadata data))
           waitlistLimit finalUserId s)]).
Proof.
  intros Hn. pose proof (normalize_key _ _ Hn) as Hkey.
  pose proof (insertUser_script_run identity waitlistLimit finalUserId
                (stored_record identity (metadata data)) s Hkey) as Hrun.
  pose proof (insertUser_completion identity waitlistLimit finalUserId
                (stored_record identity (metadata data)) s) as Hresult.
  apply String.eqb_neq in Hkey. revert Hn.
  unfold normalize, insertUser, sanitize.
  destruct (validator_isEmail _).
  - destruct (String.eqb (String_toLowerCase _) EmptyString); [done|].
    intros [= <-]. unfold stored_record in *. simpl in *. rewrite Hkey. simpl.
    unfold_monads. rewrite Hrun.
    destruct (admission_reply _ _ _ _) as [[pos existsNum] returnedUserId].
    rewrite (surjective_pairing (enqueueOrLookup_spec _ _ _ _ _)).
    rewrite <- Hresult. by destruct (pos =? -1).
  - destruct (parsePhoneNumberFromString _) as [pn|]; [|done].
    destruct (PhoneNumber.isValid pn); [|done].
    destruct (String.eqb (PhoneNumber.number pn) EmptyString); [done|].
    intros [= <-]. unfold stored_record in *. simpl in *. rewrite Hkey. simpl.
    unfold_monads. rewrite Hrun.
    destruct (admission_reply _ _ _ _) as [[pos existsNum] returnedUserId].
    rewrite (surjective_pairing (enqueueOrLookup_spec _ _ _ _ _)).
    rewrite <- Hresult. by destruct (pos =? -1).
Qed.
End Admission.

Section Contract.
Context `{Libraries}.
Import waitlistUtils.

(** C1. For every store, identity, metadata and capacity, [insertUser]
    and its script do what the admission contract says: an indexed
    identity gets back its entry id and its position in the queue with
    [already_existed = true] and has its record overwritten; a new
    identity fails with [Full] when the queue length has reached the
    capacity; otherwise it is appended, indexed and recorded, and is
    returned the length of the queue after the append with
    [already_existed = false].  The whole of it is one run of the script,
    whose reply is [{position, 1, id}], [{-1, -1, ''}] or
    [{position, 0, id}] in the three cases, and the position of a queued
    entry is its 1-based rank. *)
Theorem insertUser_meets_contract (s : store) (data : UserData JSONValue)
    (capacity : Z) (finalUserId : string) (identity : Identity) :
  normalize (username data) = Some identity →
  let record := stored_record identity (metadata data) in
  ∃ commands,
    insertUser data capacity finalUserId s
    = (enqueueOrLookup_spec identity record capacity finalUserId s,
       [redis_eval script_insertUser commands])
    ∧ REDIS_SCRIPTS.insertUser WAITLIST_KEYS.waitlist WAITLIST_KEYS.emails
        WAITLIST_KEYS.phones WAITLIST_KEYS.users finalUserId
        (script_ARGV identity).1 (script_ARGV identity).2 capacity record s
      = (admission_reply identity capacity finalUserId s,
         (enqueueOrLookup_spec identity record capacity finalUserId s).2,
         commands)
    ∧ ∀ entryId, IdentityIndex s identity = Some entryId →
        entryId ∈ queue s →
        1 ≤ positionOfEntry s entryId ≤ Z.of_nat (length (queue s))
        ∧ queue s !! Z.to_nat (positionOfEntry s entryId - 1) = Some entryId.
Proof.
  intros Hn record. eexists. split; [|split].
  - by apply insertUser_valid.
  - apply insertUser_script_run. by apply (normalize_key (username data)).
  - intros entryId _ Hin. unfold positionOfEntry.
    destruct (ipairs_find_in (queue s) entryId 1 Hin) as (n & Hn' & _ & ->).
    apply lookup_lt_Some in Hn' as Hlt.
    split; [lia|]. by replace (Z.to_nat (1 + Z.of_nat n - 1)) with n by lia.
Qed.
End Contract.

Section Failures.
Context `{Libraries}.
Import waitlistUtils.

(** An identifier that is neither an email nor a valid phone number has
    no identity. *)
Lemma normalize_invalid (raw : string) :
  validator_isEmail (String_trim raw) = false →
  (∀ phoneNumber, parsePhoneNumberFromString (String_trim raw) = Some phoneNumber →
                  PhoneNumber.isValid phoneNumber = false) →
  normalize raw = None.
Proof.
  intros Hemail Hphone. unfold normalize. rewrite Hemail.
  destruct (parsePhoneNumberFromString _) as [phoneNumber|]; [|done].
  by rewrite (Hphone phoneNumber).
Qed.

(** A new identity that finds the queue at capacity: the script reads
    the index and the length, and [insertUser] throws. *)
Lemma insertUser_full (s : store) (data : UserData JSONValue)
    (capacity : Z) (finalUserId : string) (identity : Identity) :
  normalize (username data) = Some identity →
  IdentityIndex s identity = None →
  capacity ≤ Z.of_nat (length (queue s)) →
  insertUser data capacity finalUserId s
  = (Full capacity, s,
     [redis_eval script_insertUser
        [HGET (identity_key identity).1 (identity_key identity).2;
         LLEN waitlist_list]]).
Proof.
  intros Hn Hnew Hfull. rewrite (insertUser_valid _ _ _ _ _ Hn).
  unfold enqueueOrLookup_spec, admission_commands. rewrite Hnew.
  destruct (Z.geb_spec (Z.of_nat (length (queue s))) capacity); [|lia].
  by destruct identity.
Qed.

(** C4. A failing admission leaves the store as it was.  For a raw
    identifier that is neither a valid email nor a valid phone number,
    [insertUser] returns without sending anything to Redis; for a new
    identity that arrives when the queue has reached the capacity, the
    call fails with [Full] and the script has issued no write.  In both
    cases the store (queue, identity index and records) is unchanged. *)
Theorem failed_admission_leaves_store (s : store)
    (data : UserData JSONValue) (capacity : Z) (finalUserId : string) :
  (validator_isEmail (String_trim (username data)) = false →
   (∀ phoneNumber,
      parsePhoneNumberFromString (String_trim (username data)) = Some phoneNumber →
      PhoneNumber.isValid phoneNumber = false) →
   insertUser data capacity finalUserId s = (Return invalid_result, s, []))
  ∧ (∀ identity,
       normalize (username data) = Some identity →
       IdentityIndex s identity = None →
       capacity ≤ Z.of_nat (length (queue s)) →
       ∃ t, insertUser data capacity finalUserId s = (Full capacity, s, t)
            ∧ writes_of t = []).
Proof.
  split.
  - intros Hemail Hphone. apply insertUser_invalid.
    by apply normalize_invalid.
  - intros identity Hn Hnew Hfull.
    rewrite (insertUser_full s data capacity finalUserId identity) by done.
    by eexists.
Qed.

(** C9. Admission is idempotent per identity: in a store where the
    identity is indexed under an entry id, a call for it returns that id
    and the position of that entry with [already_existed = true], leaves
    the queue and both identity hashes as they were, and a retry of the
    same request, whatever id it draws, returns the same result and
    leaves the store it found. *)
Theorem insertUser_idempotent (s : store) (data : UserData JSONValue)
    (capacity : Z) (finalUserId : string) (identity : Identity)
    (entryId : string) :
  normalize (username data) = Some identity →
  IdentityIndex s identity = Some entryId →
  ∃ s' t,
    insertUser data capacity finalUserId s
    = (Return {| id := entryId;
                 position := positionOfEntry s entryId;
                 already_existed := true |}, s', t)
    ∧ queue s' = queue s ∧ emails s' = emails s ∧ phones s' = phones s
    ∧ ∀ capacity' retryId,
        insertUser data capacity' retryId s'
        = (Return {| id := entryId;
                     position := positionOfEntry s entryId;
                     already_existed := true |}, s', t).
Proof.
  intros Hn Hidx.
  pose proof (insertUser_valid data capacity finalUserId s _ Hn) as Hrun.
  unfold enqueueOrLookup_spec, admission_commands in Hrun.
  rewrite Hidx in Hrun.
  do 2 eexists. split; [exact Hrun|]. repeat split; [done..|].
  intros capacity' retryId.
  rewrite (insertUser_valid data capacity' retryId _ _ Hn).
  unfold enqueueOrLookup_spec, admission_commands.
  replace (IdentityIndex _ identity) with (Some entryId)
    by (by destruct identity).
  unfold positionOfEntry. simpl. by rewrite insert_insert_eq.
Qed.

(** A retry right after a fresh admission: with an entry id that was not
    queued before, the retry returns the id and position of the first
    call and leaves the store the first call made. *)
Lemma insertUser_retry_after_admission (s : store)
    (data : UserData JSONValue) (capacity : Z) (finalUserId : string)
    (identity : Identity) :
  normalize (username data) = Some identity →
  IdentityIndex s identity = None →
  Z.of_nat (length (queue s)) < capacity →
  finalUserId ∉ queue s →
  ∃ r s' t,
    insertUser data capacity finalUserId s = (Return r, s', t)
    ∧ already_existed r = false
    ∧ ∀ capacity' retryId, ∃ t',
        insertUser data capacity' retryId s'
        = (Return {| id := id r; position := position r;
                     already_existed := true |}, s', t').
Proof.
  intros Hn Hnew Hroom Hfresh.
  pose proof (insertUser_valid data capacity finalUserId s _ Hn) as Hrun.
  unfold enqueueOrLookup_spec in Hrun. rewrite Hnew in Hrun.
  destruct (Z.geb_spec (Z.of_nat (length (queue s))) capacity); [lia|].
  do 3 eexists. split; [exact Hrun|]. split; [done|].
  intros capacity' retryId.
  match type of Hrun with _ = (_, ?s1, _) => set (s' := s1) end.
  pose proof (insertUser_valid data capacity' retryId s' _ Hn) as Hretry.
  unfold enqueueOrLookup_spec in Hretry.
  assert (IdentityIndex s' identity = Some finalUserId) as Hidx.
  { subst s'. destruct identity; simpl; apply lookup_insert_eq. }
  rewrite Hidx in Hretry. eexists. rewrite Hretry. f_equal. f_equal.
  - f_equal. simpl. f_equal. unfold positionOfEntry.
    replace (queue s') with (queue s ++ [finalUserId])
      by (subst s'; by destruct identity).
    rewrite ipairs_find_app_fresh by done. rewrite length_app. simpl. lia.
  - subst s'. destruct identity; simpl; by rewrite insert_insert_eq.
Qed.
End Failures.

(** ** Sequences of store operations *)

Section Runs.
Context `{Libraries}.
Import waitlistUtils.

Lemma after_read (op : operation) (s : store) :
  match op with op_insertUser _ _ _ => False | _ => True end →
  after op s = s.
Proof.
  destruct op as [| identifier | identifier | entryId]; [done| | |]; intros _.
  - unfold after, getPositionByIdentifier, redis_eval_script,
      REDIS_SCRIPTS.getPositionByIdentifier, mbind, Script_bind, Redis.bind.
    simpl. destruct (emails s !! identifier); simpl; [done|].
    by destruct (phones s !! identifier).
  - unfold after, isOnWaitlist, redis_eval_script,
      REDIS_SCRIPTS.isOnWaitlist, mbind, Task_bind, Script_bind, Redis.bind.
    simpl. destruct (emails s !! identifier); simpl; [done|].
    by destruct (phones s !! identifier).
  - done.
Qed.

(** What an admission does to the store, case by case. *)
Lemma after_insertUser data capacity finalUserId s :
  let s' := after (op_insertUser data capacity finalUserId) s in
  s' = s
  ∨ (∃ entryId record, s' = hash_set waitlist_users entryId record s)
  ∨ (∃ identity record,
       normalize (username data) = Some identity
       ∧ IdentityIndex s identity = None
       ∧ Z.of_nat (length (queue s)) < capacity
       ∧ s' = hash_set waitlist_users finalUserId record
                (index_identity identity finalUserId
                   (Store (queue s ++ [finalUserId])
                      (users s) (emails s) (phones s)))).
Proof.
  simpl. destruct (normalize (username data)) as [identity|] eqn:Hn.
  - rewrite (insertUser_valid _ _ _ _ _ Hn). simpl.
    unfold enqueueOrLookup_spec.
    destruct (IdentityIndex s identity) as [entryId|] eqn:Hidx; simpl.
    + right; left. eauto.
    + destruct (Z.geb_spec (Z.of_nat (length (queue s))) capacity); simpl.
      * by left.
      * right; right. exists identity. eexists. repeat split; [done|lia].
  - rewrite (insertUser_invalid _ _ _ _ Hn). by left.
Qed.

Lemma queue_admitted identity entryId record q u e p :
  queue (hash_set waitlist_users entryId record
           (index_identity identity entryId (Store q u e p))) = q.
Proof. by destruct identity. Qed.

Lemma queue_after (op : operation) (s : store) :
  queue (after op s) = queue s
  ∨ ∃ data capacity finalUserId,
      op = op_insertUser data capacity finalUserId
      ∧ Z.of_nat (length (queue s)) < capacity
      ∧ queue (after op s) = queue s ++ [finalUserId].
Proof.
  destruct op as [data capacity finalUserId| | |];
    try (left; by rewrite after_read).
  destruct (after_insertUser data capacity finalUserId s)
    as [->|[(entryId & record & ->)|(identity & record & _ & _ & Hroom & ->)]].
  - by left.
  - by left.
  - right. exists data, capacity, finalUserId.
    repeat split; [done|]. apply queue_admitted.
Qed.

(** Positions are stable: an operation leaves every queued entry queued
    and at its position. *)
Lemma position_after (op : operation) (s : store) (entryId : string) :
  entryId ∈ queue s →
  entryId ∈ queue (after op s)
  ∧ positionOfEntry (after op s) entryId = positionOfEntry s entryId.
Proof.
  intros Hin. unfold positionOfEntry.
  destruct (queue_after op s) as [->|(? & ? & finalUserId & _ & _ & ->)];
    [done|].
  split; [set_solver|]. by apply ipairs_find_app_in.
Qed.

Lemma position_run (ops : list operation) (s : store) (entryId : string) :
  entryId ∈ queue s →
  entryId ∈ queue (run ops s)
  ∧ positionOfEntry (run ops s) entryId = positionOfEntry s entryId.
Proof.
  revert s. induction ops as [|op ops IH]; intros s Hin; [done|].
  destruct (position_after op s entryId Hin) as [Hin' <-].
  apply (IH _ Hin').
Qed.

Lemma within_after (K : Z) (op : operation) (s : store) :
  with_capacity K op → within K s → within K (after op s).
Proof.
  intros Hcap [Hlen Hsize].
  destruct op as [data capacity finalUserId| | |];
    try (by rewrite after_read).
  simpl in Hcap. subst capacity.
  destruct (after_insertUser data K finalUserId s)
    as [->|[(entryId & record & ->)|(identity & record & _ & Hnew & Hroom & ->)]].
  - done.
  - done.
  - unfold within. destruct identity as [address|e164]; simpl in *;
      rewrite length_app; simpl;
      rewrite map_size_insert_None by done; split; lia.
Qed.

Lemma within_run (K : Z) (ops : list operation) (s : store) :
  Forall (with_capacity K) ops → within K s → within K (run ops s).
Proof.
  revert s. induction ops as [|op ops IH]; intros s Hcaps Hs; [done|].
  apply Forall_cons in Hcaps as [Hcap Hcaps]. simpl.
  apply IH; [done|]. by apply within_after.
Qed.

Lemma distinct_after (op : operation) (ops : list operation) (s : store) :
  distinct (drawn_ids (op :: ops)) s → distinct (drawn_ids ops) (after op s).
Proof.
  intros [Hnd Hidx].
  destruct op as [data capacity finalUserId| | |];
    try (by rewrite after_read).
  simpl in Hnd.
  assert (NoDup (queue s ++ drawn_ids ops)) as Hnd'.
  { apply NoDup_app in Hnd as (? & Hdisj & Hrest).
    apply NoDup_cons in Hrest as [_ ?].
    apply NoDup_app. repeat split; [done| |done].
    intros x Hx Hx'. apply (Hdisj x Hx). by right. }
  destruct (after_insertUser data capacity finalUserId s)
    as [->|[(entryId & record & ->)|(identity & record & _ & Hnew & Hroom & ->)]].
  - done.
  - split; [done|]. intros identity e He. apply (Hidx identity).
    by destruct identity.
  - split.
    + by rewrite queue_admitted, <- app_assoc.
    + intros identity' e. rewrite queue_admitted.
      destruct identity as [a|p], identity' as [a'|p']; simpl; intros He.
      * destruct (decide (a = a')) as [->|Hne].
        -- rewrite lookup_insert_eq in He. injection He as <-. set_solver.
        -- rewrite lookup_insert_ne in He by done.
           apply (Hidx (Email a')) in He. set_solver.
      * apply (Hidx (Phone p')) in He. set_solver.
      * apply (Hidx (Email a')) in He. set_solver.
      * destruct (decide (p = p')) as [->|Hne].
        -- rewrite lookup_insert_eq in He. injection He as <-. set_solver.
        -- rewrite lookup_insert_ne in He by done.
           apply (Hidx (Phone p')) in He. set_solver.
Qed.

Lemma distinct_run (ops rest : list operation) (s : store) :
  distinct (drawn_ids (ops ++ rest)) s → distinct (drawn_ids rest) (run ops s).
Proof.
  revert s. induction ops as [|op ops IH]; intros s Hs; [done|].
  simpl. apply IH. by apply distinct_after.
Qed.

Lemma distinct_empty (ids : list string) :
  NoDup ids → distinct ids empty_store.
Proof. intros Hnd. split; [done|]. by intros []. Qed.
End Runs.

Section Invariants.
Context `{Libraries}.
Import waitlistUtils.

(** C2. With every admission invoked with the same capacity [K], the
    queue of a store reached from the empty one never holds more than
    [K] entries; and once [K] distinct identities are enqueued, a call
    for any further identity fails with [Full] and leaves the store as
    it was. *)
Theorem capacity_enforced (K : Z) (ops : list operation) :
  0 ≤ K →
  Forall (with_capacity K) ops →
  let s := run ops empty_store in
  Z.of_nat (length (queue s)) ≤ K
  ∧ ∀ data finalUserId identity,
      normalize (username data) = Some identity →
      IdentityIndex s identity = None →
      Z.of_nat (size (emails s) + size (phones s)) = K →
      ∃ t, insertUser data K finalUserId s = (Full K, s, t).
Proof.
  intros HK Hcaps s.
  assert (within K s) as [Hlen Hsize].
  { apply within_run; [done|]. split; simpl; [lia|done]. }
  split; [done|].
  intros data finalUserId identity Hn Hnew Hfull.
  eexists. apply (insertUser_full s data K finalUserId identity); [done..|lia].
Qed.

(** C3. In a store reached from the empty one, with the ids drawn for
    new entries all distinct, the positions of the queued entries are
    exactly 1, ..., len(Queue), each once and in queue order; the
    position of a queued entry is the same after any further operations;
    and the position an admission returns is the one the entry has
    after any further operations. *)
Theorem positions_dense_and_stable (ops later : list operation) :
  NoDup (drawn_ids ops) →
  let s := run ops empty_store in
  map (positionOfEntry s) (queue s)
  = map Z.of_nat (seq 1 (length (queue s)))
  ∧ (∀ entryId, entryId ∈ queue s →
       positionOfEntry (run later s) entryId = positionOfEntry s entryId)
  ∧ (∀ data capacity finalUserId identity r s' t,
       normalize (username data) = Some identity →
       finalUserId ∉ drawn_ids ops →
       insertUser data capacity finalUserId s = (Return r, s', t) →
       positionOfEntry (run later s') (id r) = position r).
Proof.
  intros Hnd s. split; [|split].
  - destruct (distinct_run ops [] empty_store) as [Hq _].
    { rewrite app_nil_r. by apply distinct_empty. }
    fold s in Hq. rewrite app_nil_r in Hq.
    unfold positionOfEntry. rewrite ipairs_find_NoDup by done.
    rewrite <- seq_shift, map_map. apply map_ext. intros n. lia.
  - intros entryId Hin. by apply position_run.
  - intros data capacity finalUserId identity r s' t Hn Hfresh Hrun.
    destruct (distinct_run ops [op_insertUser data capacity finalUserId]
                empty_store) as [Hq Hidx].
    { apply distinct_empty. unfold drawn_ids. rewrite flat_map_app. simpl.
      apply NoDup_app. repeat split; [done| |apply NoDup_singleton].
      intros x Hx Hx'. apply list_elem_of_singleton in Hx' as ->. done. }
    fold s in Hq, Hidx. simpl in Hq.
    assert (finalUserId ∉ queue s) as Hnotin.
    { apply NoDup_app in Hq as (_ & Hdisj & _).
      intros Hin. apply (Hdisj _ Hin). by left. }
    rewrite (insertUser_valid _ _ _ _ _ Hn) in Hrun.
    unfold enqueueOrLookup_spec in Hrun.
    destruct (IdentityIndex s identity) as [entryId|] eqn:Hi.
    + injection Hrun as <- <- _.
      match goal with |- positionOfEntry (run later ?s1) ?e = _ =>
        destruct (position_run later s1 e) as [_ ->] end.
      * by apply (Hidx identity).
      * done.
    + destruct (Z.of_nat (length (queue s)) >=? capacity); [done|].
      injection Hrun as <- <- _.
      match goal with |- positionOfEntry (run later ?s1) ?e = _ =>
        destruct (position_run later s1 e) as [_ ->] end.
      * destruct identity; simpl; set_solver.
      * unfold positionOfEntry.
        replace (queue _) with (queue s ++ [finalUserId])
          by (by destruct identity).
        simpl. rewrite ipairs_find_app_fresh by done.
        rewrite length_app. simpl. lia.
Qed.
End Invariants.

(** ** The registration flow *)

Section Registration.
Context `{Libraries}.
Import waitlistUtils userManagementUtils userManagementControllers.

Lemma commits_app (t1 t2 : list event) :
  commits (t1 ++ t2) = (commits t1 + commits t2)%nat.
Proof. unfold commits. by rewrite filter_app, length_app. Qed.

Lemma admissions_app (t1 t2 : list event) :
  admissions (t1 ++ t2) = (admissions t1 + admissions t2)%nat.
Proof. unfold admissions. by rewrite filter_app, length_app. Qed.

Lemma writes_of_app (t1 t2 : list event) :
  writes_of (t1 ++ t2) = writes_of t1 ++ writes_of t2.
Proof.
  unfold writes_of, commands_of.
  induction t1 as [|e t1 IH]; [done|]. simpl.
  by rewrite !filter_app, IH, app_assoc.
Qed.

Lemma getPositionByIdentifier_reads (identifier : string) (s : store) :
  ∃ commands,
    getPositionByIdentifier identifier s
    = (positionOf s identifier, s,
       [redis_eval script_getPositionByIdentifier commands])
    ∧ filter (λ c, is_write c = true) commands = [].
Proof.
  unfold positionOf, getPositionByIdentifier, redis_eval_script,
    REDIS_SCRIPTS.getPositionByIdentifier, mbind, Script_bind, Redis.bind.
  simpl. destruct (emails s !! identifier); simpl; [by eexists|].
  destruct (phones s !! identifier); simpl; by eexists.
Qed.

(** The three reads of step 2 mutate nothing. *)
Lemma fetched_reads (s : store) (identifier : string) :
  commits (fetched s identifier) = 0%nat
  ∧ admissions (fetched s identifier) = 0%nat
  ∧ writes_of (fetched s identifier) = [].
Proof.
  unfold fetched.
  destruct (getPositionByIdentifier_reads identifier s) as (c & -> & Hc).
  simpl. repeat split; try done.
  unfold writes_of. simpl. by rewrite app_nil_r.
Qed.

(** A request that validation turns down is answered at once. *)
Lemma registerUserController_rejected rawUsername supabaseClient uuid s :
  (∀ identifier, ¬ accepted rawUsername identifier) →
  ∃ response,
    registerUserController rawUsername supabaseClient uuid s
    = (response, s, []) ∧ status response = 400.
Proof.
  intros Hrej. unfold registerUserController.
  destruct (isValid _) eqn:Hvalid; simpl; [|by eexists].
  destruct (sanitizedIdentifier _) as [identifier|] eqn:Hid; simpl;
    [|by eexists].
  destruct (String.eqb_spec identifier EmptyString) as [->|Hne]; simpl; [by eexists|].
  destruct (Hrej identifier). by repeat split.
Qed.

(** A request that validation lets through runs the three reads and then,
    if the settings came back, step 3 on what was read. *)
Lemma registerUserController_accepted rawUsername supabaseClient uuid s
    identifier :
  accepted rawUsername identifier →
  registerUserController rawUsername supabaseClient uuid s
  = match getCurrentOnboardingSettings supabaseClient s with
    | (Return settings, _, _) =>
        let '(response, s', t) :=
          registerUserScenarios supabaseClient identifier
            (alreadyRegistered supabaseClient identifier) settings
            (positionOf s identifier) uuid s in
        (response, s', fetched s identifier ++ t)
    | (Throw message, _, _) =>
        ({| status := 500;
            body := [("registered_signup", JBool false);
                     ("on_waitlist", JBool false);
                     ("waitlist_position", JNum 0);
                     ("metadata", JObj [("error", JStr message)])] |},
         s, fetched s identifier)
    end.
Proof.
  intros (Hvalid & Hid & Hne). unfold registerUserController.
  rewrite Hvalid, Hid. simpl. apply String.eqb_neq in Hne. rewrite Hne. simpl.
  destruct (getPositionByIdentifier_reads identifier s) as (c & Hread & _).
  unfold fetched, alreadyRegistered, mbind, Task_bind,
    getCurrentOnboardingSettings, checkUserExists.
  simpl. rewrite Hread. simpl.
  destruct (get_current_settings supabaseClient) as [[settings|]|message];
    simpl; try done.
  by destruct (registerUserScenarios _ _ _ _ _ _ s) as [[response s'] t].
Qed.

(** The trace of one [insertUser]: no commit, at most one run of the
    admission script, and the store untouched when there is none. *)
Lemma insertUser_trace data capacity finalUserId s :
  ∃ r s' t,
    insertUser data capacity finalUserId s = (r, s', t)
    ∧ commits t = 0%nat ∧ (admissions t ≤ 1)%nat
    ∧ (admissions t = 0%nat → s' = s ∧ t = []).
Proof.
  destruct (normalize (username data)) as [identity|] eqn:Hn.
  - rewrite (insertUser_valid _ _ _ _ _ Hn).
    destruct (enqueueOrLookup_spec _ _ _ _ _) as [r s'].
    do 3 eexists. split; [done|]. unfold commits, admissions. simpl.
    split; [done|]. split; [lia|]. intros [=].
  - rewrite (insertUser_invalid _ _ _ _ Hn).
    do 3 eexists. split; [done|]. unfold commits, admissions. simpl.
    split; [done|]. split; [lia|]. done.
Qed.

Lemma isWaitlistEligible_cutoff_eligible settings waitlistPosition :
  isWaitlistEligible settings waitlistPosition
  = cutoff_eligible (policy_of settings) waitlistPosition.
Proof.
  unfold isWaitlistEligible, isUserOnWaitlist, cutoff_eligible. simpl.
  destruct (Z.gtb_spec waitlistPosition 0),
    (Z.gtb_spec (signup_cutoff settings) 0),
    (Z.geb_spec (signup_cutoff settings) 0),
    (Z.leb_spec waitlistPosition (signup_cutoff settings));
    simpl; first [done | lia].
Qed.

Lemma evaluate_evaluate_spec userExists waitlistPosition settings :
  evaluate userExists waitlistPosition settings
  = evaluate_spec userExists waitlistPosition (policy_of settings).
Proof.
  unfold evaluate, evaluate_spec.
  rewrite isWaitlistEligible_cutoff_eligible.
  unfold userLimitReached, isUserOnWaitlist, cutoff_eligible. simpl.
  destruct userExists; [done|].
  destruct (_ && _); [done|].
  destruct (String.eqb _ "waitlist"); simpl;
    destruct (Z.gtb_spec waitlistPosition 0),
      (Z.geb_spec (signup_cutoff settings) 0),
      (Z.leb_spec waitlistPosition (signup_cutoff settings)),
      (Z.ltb_spec (signup_cutoff settings) 0),
      (Z.gtb_spec waitlistPosition (signup_cutoff settings));
    simpl; first [done | lia].
Qed.

Lemma registerUserScenarios_act supabaseClient identifier userExists settings
    waitlistPosition uuid :
  registerUserScenarios supabaseClient identifier userExists settings
    waitlistPosition uuid
  = act (evaluate userExists waitlistPosition settings) supabaseClient
      identifier settings waitlistPosition uuid.
Proof.
  unfold registerUserScenarios, evaluate, checkWaitlistRegistrationBlocks.
  destruct userExists; [done|].
  destruct (userLimitReached settings); [done|].
  destruct (_ && _); [done|].
  destruct (isUserOnWaitlist waitlistPosition) eqn:Hon;
    [|by simpl; rewrite Hon].
  destruct (signup_cutoff settings <? 0); [done|].
  destruct (waitlistPosition >? signup_cutoff settings); [done|].
  by simpl; rewrite Hon.
Qed.

(** C6. Step 3 of [registerUserController] applies its checks in the
    order of the specification, first match wins: AlreadyRegistered; then
    CapacityExhausted, when [registrationCap > 0] and [registeredCount >=
    registrationCap]; then WaitlistOnlyIneligible, in waitlist-only mode for
    an identity that is not cutoff-eligible; then BlockedByCutoff, for a
    queued identity that is not cutoff-eligible, with the negative-cutoff
    reason when [signupCutoff < 0] and the position-beyond-cutoff reason
    otherwise; otherwise EligibleToRegister.  Each outcome is served by
    its own handler. *)
Theorem registration_checks_in_order (supabaseClient : SupabaseClient)
    (identifier : string) (userExists : bool) (settings : OnboardingSettings)
    (waitlistPosition : Z) (uuid : string) :
  evaluate userExists waitlistPosition settings
  = evaluate_spec userExists waitlistPosition (policy_of settings)
  ∧ registerUserScenarios supabaseClient identifier userExists settings
      waitlistPosition uuid
    = act (evaluate_spec userExists waitlistPosition (policy_of settings))
        supabaseClient identifier settings waitlistPosition uuid.
Proof.
  split; [apply evaluate_evaluate_spec|].
  rewrite <- evaluate_evaluate_spec. apply registerUserScenarios_act.
Qed.
End Registration.

Section Orchestration.
Context `{Libraries}.
Import waitlistUtils userManagementUtils userManagementControllers.

(** A handler that admits: it calls [insertUser] once and answers from
    its result. *)
Lemma handleUserLimitReached_run identifier settings uuid s :
  ∃ result s' t response,
    insertUser {| username := identifier; metadata := None |}
      (waitlist_limit settings) uuid s = (result, s', t)
    ∧ handleUserLimitReached identifier settings uuid s = (response, s', t)
    ∧ field "registered_signup" response = Some (JBool false)
    ∧ match result with
      | Return r =>
          status response = 200
          ∧ field "waitlist_position" response = Some (JNum (position r))
          ∧ metadata_field "already_existed_on_waitlist" response
            = Some (JBool (already_existed r))
      | Throw _ =>
          status response = 500
          ∧ field "waitlist_position" response = Some (JNum 0)
      end.
Proof.
  unfold handleUserLimitReached, mbind, Task_bind.
  destruct (insertUser _ _ _ s) as [[result s'] t].
  exists result, s', t.
  destruct result as [r|message]; simpl; rewrite app_nil_r;
    eexists; repeat split.
Qed.

Lemma handleWaitlistOnlyRegistration_new identifier settings
    waitlistPosition uuid s :
  ∃ result s' t response,
    insertUser {| username := identifier; metadata := None |}
      (waitlist_limit settings) uuid s = (result, s', t)
    ∧ handleWaitlistOnlyRegistration identifier settings false
        waitlistPosition uuid s = (response, s', t)
    ∧ field "registered_signup" response = Some (JBool false)
    ∧ match result with
      | Return r =>
          status response = 200
          ∧ field "waitlist_position" response = Some (JNum (position r))
          ∧ metadata_field "already_existed_on_waitlist" response
            = Some (JBool (already_existed r))
      | Throw _ =>
          status response = 500
          ∧ field "waitlist_position" response = Some (JNum 0)
      end.
Proof.
  unfold handleWaitlistOnlyRegistration, mbind, Task_bind. simpl.
  destruct (insertUser _ _ _ s) as [[result s'] t].
  exists result, s', t.
  destruct result as [r|message]; simpl; rewrite app_nil_r;
    eexists; repeat split.
Qed.

(** What the handler of each outcome leaves behind: at most one mutating
    event, no mutation at all for AlreadyRegistered, and nothing in the
    store around a commit. *)
Lemma act_trace outcome supabaseClient identifier settings waitlistPosition
    uuid s :
  ∃ response s' t,
    act outcome supabaseClient identifier settings waitlistPosition uuid s
    = (response, s', t)
    ∧ (commits t + admissions t ≤ 1)%nat
    ∧ (admissions t = 0%nat → s' = s ∧ writes_of t = [])
    ∧ (outcome = AlreadyRegistered → t = [])
    ∧ (outcome = EligibleToRegister →
       commits t = 1%nat ∧ admissions t = 0%nat).
Proof.
  destruct outcome as [| | |reason|]; simpl.
  - do 3 eexists. split; [done|]. unfold commits, admissions. simpl.
    split; [lia|]. by repeat split.
  - destruct (handleUserLimitReached_run identifier settings uuid s)
      as (result & s' & t & response & Hins & -> & _).
    destruct (insertUser_trace {| username := identifier; metadata := None |}
                (waitlist_limit settings) uuid s)
      as (r0 & s0 & t0 & Hins' & Hc & Ha & Hs).
    rewrite Hins in Hins'. injection Hins' as <- <- <-.
    do 3 eexists. split; [done|]. split; [lia|]. split; [|split; [done|]].
    + intros Hz. by destruct (Hs Hz) as [-> ->].
    + intros [=].
  - destruct (isUserOnWaitlist waitlistPosition).
    + do 3 eexists. split; [done|]. unfold commits, admissions. simpl.
    split; [lia|]. by repeat split.
    + destruct (handleWaitlistOnlyRegistration_new identifier settings
                  waitlistPosition uuid s)
        as (result & s' & t & response & Hins & -> & _).
      destruct (insertUser_trace {| username := identifier; metadata := None |}
                  (waitlist_limit settings) uuid s)
        as (r0 & s0 & t0 & Hins' & Hc & Ha & Hs).
      rewrite Hins in Hins'. injection Hins' as <- <- <-.
      do 3 eexists. split; [done|]. split; [lia|]. split; [|split; [done|]].
      * intros Hz. by destruct (Hs Hz) as [-> ->].
      * intros [=].
  - do 3 eexists. split; [done|]. unfold commits, admissions. simpl.
    split; [lia|]. by repeat split.
  - unfold attemptUserRegistration, registerNewUser, mbind, Task_bind.
    destruct (match increment_user_count supabaseClient identifier with
              | rpc_data d => default false d
              | rpc_error _ => false
              end); simpl;
      do 3 eexists; (split; [done|]); unfold commits, admissions; simpl;
      (split; [lia|]); by repeat split.
Qed.

(** C8. One call of [registerUserController] performs at most one
    mutating side effect, the registration commit or one run of the
    admission script and never both; without an admission the store is
    left as it was and nothing is written to Redis; for an identifier the
    registry already knows no mutation is performed at all; and a call
    that attempts the commit, whether it succeeds or fails, performs no
    admission and leaves the store as it was. *)
Theorem at_most_one_mutation (rawUsername : unknown)
    (supabaseClient : SupabaseClient) (uuid : string) (s : store) :
  ∃ response s' t,
    registerUserController rawUsername supabaseClient uuid s
    = (response, s', t)
    ∧ (commits t + admissions t ≤ 1)%nat
    ∧ (admissions t = 0%nat → s' = s ∧ writes_of t = [])
    ∧ (∀ identifier,
         accepted rawUsername identifier →
         alreadyRegistered supabaseClient identifier = true →
         commits t = 0%nat ∧ admissions t = 0%nat)
    ∧ (commits t = 1%nat → admissions t = 0%nat ∧ s' = s).
Proof.
  assert ((∃ identifier, accepted rawUsername identifier)
          ∨ ∀ identifier, ¬ accepted rawUsername identifier) as [[identifier Hacc]|Hrej].
  { unfold accepted.
    destruct (isValid _); [|right; by intros ? (? & _)].
    destruct (sanitizedIdentifier _) as [identifier|];
      [|right; by intros ? (_ & ? & _)].
    destruct (decide (identifier = EmptyString)) as [->|Hne].
    - right. intros ? (_ & [= <-] & ?). done.
    - left. by exists identifier. }
  - rewrite (registerUserController_accepted _ _ _ _ _ Hacc).
    destruct (fetched_reads s identifier) as (Hfc & Hfa & Hfw).
    assert (∀ identifier', accepted rawUsername identifier' →
                           identifier' = identifier) as Hsame.
    { intros ? (_ & Hid' & _). destruct Hacc as (_ & Hid & _). congruence. }
    unfold getCurrentOnboardingSettings.
    destruct (get_current_settings supabaseClient) as [[settings|]|message].
    + rewrite registerUserScenarios_act.
      destruct (act_trace
                  (evaluate (alreadyRegistered supabaseClient identifier)
                     (positionOf s identifier) settings)
                  supabaseClient identifier settings
                  (positionOf s identifier) uuid s)
        as (response & s' & t & -> & Hsum & Hnone & Hreg & Hcommit).
      do 3 eexists. split; [done|].
      rewrite commits_app, admissions_app, Hfc, Hfa.
      split; [lia|]. split; [|split].
      * intros Hz. destruct (Hnone Hz) as [-> Hw]. split; [done|].
        by rewrite writes_of_app, Hfw, Hw.
      * intros identifier' Hacc' Hknown.
        rewrite (Hsame _ Hacc') in Hknown. unfold evaluate in Hreg.
        rewrite Hknown in Hreg. by rewrite Hreg.
      * intros Hone. assert (admissions t = 0%nat) as Hz by lia.
        split; [done|]. by destruct (Hnone Hz).
    + do 3 eexists. split; [done|]. rewrite Hfc, Hfa.
      split; [lia|]. split; [done|]. split; [done|]. intros [=].
    + do 3 eexists. split; [done|]. rewrite Hfc, Hfa.
      split; [lia|]. split; [done|]. split; [done|]. intros [=].
  - destruct (registerUserController_rejected rawUsername supabaseClient uuid s Hrej)
      as (response & -> & _).
    do 3 eexists. split; [done|]. unfold commits, admissions. simpl.
    split; [lia|]. split; [done|].
    split; [|done]. intros identifier Hacc. by destruct (Hrej identifier).
Qed.
End Orchestration.

Section Waitlisting.
Context `{Libraries}.
Import waitlistUtils userManagementUtils userManagementControllers.

(** C7, as the code has it.  When the outcome is CapacityExhausted, or
    WaitlistOnlyIneligible for an identifier that is not queued yet, the
    controller calls [insertUser] once for the identifier and answers
    "not registered" from its result: the resulting position and whether
    the identifier already existed, or an error with position 0 when
    [insertUser] throws.  When the outcome is WaitlistOnlyIneligible for
    an identifier that is already queued, or BlockedByCutoff, it does not
    call [insertUser]: the store is left as it was, and the answer is
    "not registered, on the waitlist" with the position that was looked
    up and without an already-existed flag. *)
Theorem waitlisting_outcomes (rawUsername : unknown)
    (supabaseClient : SupabaseClient) (uuid : string) (s : store)
    (identifier : string) (settings : OnboardingSettings) :
  accepted rawUsername identifier →
  get_current_settings supabaseClient = rpc_data (Some settings) →
  let waitlistPosition := positionOf s identifier in
  let outcome :=
    evaluate (alreadyRegistered supabaseClient identifier)
      waitlistPosition settings in
  ∃ response s' t,
  registerUserController rawUsername supabaseClient uuid s
  = (response, s', t)
  ∧ (outcome = CapacityExhausted
   ∨ (outcome = WaitlistOnlyIneligible ∧ waitlistPosition ≤ 0) →
   ∃ result ti,
     insertUser {| username := identifier; metadata := None |}
       (waitlist_limit settings) uuid s = (result, s', ti)
     ∧ t = fetched s identifier ++ ti
     ∧ field "registered_signup" response = Some (JBool false)
     ∧ match result with
       | Return r =>
           status response = 200
           ∧ field "waitlist_position" response = Some (JNum (position r))
           ∧ metadata_field "already_existed_on_waitlist" response
             = Some (JBool (already_existed r))
       | Throw _ =>
           status response = 500
           ∧ field "waitlist_position" response = Some (JNum 0)
       end)
  ∧ ((outcome = WaitlistOnlyIneligible ∧ 0 < waitlistPosition)
     ∨ (∃ reason, outcome = BlockedByCutoff reason) →
     s' = s
     ∧ t = fetched s identifier
     ∧ status response = 200
     ∧ field "registered_signup" response = Some (JBool false)
     ∧ field "on_waitlist" response = Some (JBool true)
     ∧ field "waitlist_position" response = Some (JNum waitlistPosition)
     ∧ metadata_field "already_existed_on_waitlist" response = None).
Proof.
  intros Hacc Hsettings waitlistPosition outcome.
  destruct (registerUserController rawUsername supabaseClient uuid s)
    as [[response s'] t] eqn:Hrun.
  exists response, s', t. split; [done|].
  rewrite (registerUserController_accepted _ _ _ _ _ Hacc) in Hrun.
  unfold getCurrentOnboardingSettings in Hrun. rewrite Hsettings in Hrun.
  rewrite registerUserScenarios_act in Hrun.
  fold waitlistPosition outcome in Hrun.
  split.
  - intros [Hout|[Hout Hpos]]; rewrite Hout in Hrun; simpl in Hrun.
    + destruct (handleUserLimitReached_run identifier settings uuid s)
        as (result & s1 & t1 & response1 & Hins & Hh & Hr).
      rewrite Hh in Hrun. injection Hrun as <- <- <-.
      exists result, t1. split; [done|]. split; [done|]. exact Hr.
    + replace (isUserOnWaitlist waitlistPosition) with false in Hrun
        by (unfold isUserOnWaitlist; lia).
      destruct (handleWaitlistOnlyRegistration_new identifier settings
                  waitlistPosition uuid s)
        as (result & s1 & t1 & response1 & Hins & Hh & Hr).
      rewrite Hh in Hrun. injection Hrun as <- <- <-.
      exists result, t1. split; [done|]. split; [done|]. exact Hr.
  - intros [[Hout Hpos]|[reason Hout]]; rewrite Hout in Hrun; simpl in Hrun.
    + replace (isUserOnWaitlist waitlistPosition) with true in Hrun
        by (unfold isUserOnWaitlist; lia).
      simpl in Hrun. injection Hrun as <- <- <-.
      rewrite app_nil_r. by repeat split.
    + injection Hrun as <- <- <-. rewrite app_nil_r.
      by destruct reason; repeat split.
Qed.
End Waitlisting.

(** C7 as stated fails: for an identifier queued at position 1 under a
    signup cutoff of 0, the outcome is BlockedByCutoff, and the controller
    answers from the position it looked up without running the admission
    script and without saying whether the identifier already existed. *)
Lemma blocked_by_cutoff_is_not_enqueued :
  let settings := Sample.settings 0 "all" in
  let '(response, s', t) :=
    userManagementControllers.registerUserController (H := Sample.libraries)
      (a_string "a@x.com") (Sample.supabase settings) "u2"
      Sample.one_queued in
  evaluate false (positionOf Sample.one_queued "a@x.com") settings
  = BlockedByCutoff PositionBeyondCutoff
  ∧ admissions t = 0%nat
  ∧ s' = Sample.one_queued
  ∧ metadata_field "already_existed_on_waitlist" response = None
  ∧ ∃ r s'' ti,
      waitlistUtils.insertUser (H := Sample.libraries)
        {| username := "a@x.com"; metadata := None |}
        (waitlist_limit settings) "u2" Sample.one_queued = (Return r, s'', ti)
      ∧ admissions ti = 1%nat.
Proof. vm_compute. repeat split. do 3 eexists. split; reflexivity. Qed.

Section Signalling.
Context `{Libraries}.
Import waitlistUtils userManagementUtils userManagementControllers.

Lemma accepted_truthy (username : unknown) (identifier : string) :
  accepted username identifier → js_truthy username = true.
Proof.
  intros (Hvalid & _). destruct username as [raw|]; [|done].
  simpl in *. by destruct (String.eqb raw EmptyString).
Qed.

(** A request that validation lets through fetches the settings and, if
    they came back, calls [insertUser] and answers from its result. *)
Lemma addToWaitlistController_accepted username supabaseClient uuid s
    identifier settings result s' t :
  accepted username identifier →
  get_current_settings supabaseClient = rpc_data (Some settings) →
  insertUser {| username := identifier; metadata := None |}
    (waitlist_limit settings) uuid s = (result, s', t) →
  addToWaitlistController username supabaseClient uuid s
  = (match result with
     | Return r =>
         if String.eqb (id r) EmptyString then
           {| status := 200;
              body := [("success", JBool false);
                       ("position", JNum 0);
                       ("already_existed", JBool false)] |}
         else
           {| status := 200;
              body := [("success", JBool true);
                       ("position", JNum (position r));
                       ("already_existed", JBool (already_existed r))] |}
     | Throw _ =>
         {| status := 500;
            body := [("success", JBool false);
                     ("position", JNum 0);
                     ("error", JStr "Internal server error")] |}
     end, s', supabase_rpc rpc_get_current_settings :: t).
Proof.
  intros Hacc Hsettings Hins. unfold addToWaitlistController.
  rewrite (accepted_truthy _ _ Hacc). destruct Hacc as (Hvalid & Hid & Hne).
  rewrite Hvalid, Hid. simpl. apply String.eqb_neq in Hne. rewrite Hne. simpl.
  unfold mbind, Task_bind, getCurrentOnboardingSettings.
  rewrite Hsettings, Hins.
  destruct result as [r|message]; simpl; [|by rewrite app_nil_r].
  destruct (String.eqb (id r) EmptyString); simpl; by rewrite app_nil_r.
Qed.

(** C10. Invalid identifiers and a full waitlist are signalled in
    different ways.  For a raw identifier that is neither a valid email nor
    a valid phone number, [insertUser] does not throw: it returns
    [{id: '', position: 0, already_existed: false}]; the add-to-waitlist
    controller recognises a result with an empty id and answers
    [success = false] with position 0.  For a new identity that finds the
    queue at capacity, [insertUser] throws, and the controller answers
    with an internal server error. *)
Theorem invalid_returned_full_thrown (s : store) (data : UserData JSONValue)
    (capacity : Z) (finalUserId : string) :
  (validator_isEmail (String_trim (username data)) = false →
   (∀ phoneNumber,
      parsePhoneNumberFromString (String_trim (username data)) = Some phoneNumber →
      PhoneNumber.isValid phoneNumber = false) →
   insertUser data capacity finalUserId s
   = (Return {| id := EmptyString; position := 0; already_existed := false |}, s, []))
  ∧ (∀ identity,
       normalize (username data) = Some identity →
       IdentityIndex s identity = None →
       capacity ≤ Z.of_nat (length (queue s)) →
       ∃ message t,
         insertUser data capacity finalUserId s = (Throw message, s, t))
  ∧ (∀ rawUsername supabaseClient identifier settings result s' t,
       accepted rawUsername identifier →
       get_current_settings supabaseClient = rpc_data (Some settings) →
       insertUser {| username := identifier; metadata := None |}
         (waitlist_limit settings) finalUserId s = (result, s', t) →
       let response :=
         (addToWaitlistController rawUsername supabaseClient finalUserId s).1.1 in
       match result with
       | Return r =>
           id r = EmptyString →
           response = {| status := 200;
                         body := [("success", JBool false);
                                  ("position", JNum 0);
                                  ("already_existed", JBool false)] |}
       | Throw _ =>
           response = {| status := 500;
                         body := [("success", JBool false);
                                  ("position", JNum 0);
                                  ("error", JStr "Internal server error")] |}
       end).
Proof.
  split; [|split].
  - intros Hemail Hphone. apply insertUser_invalid. by apply normalize_invalid.
  - intros identity Hn Hnew Hfull.
    rewrite (insertUser_full s data capacity finalUserId identity) by done.
    by do 2 eexists.
  - intros rawUsername supabaseClient identifier settings result s' t
      Hacc Hsettings Hins.
    rewrite (addToWaitlistController_accepted _ _ _ _ _ _ _ _ _
               Hacc Hsettings Hins). simpl.
    destruct result as [r|message]; [|done]. by intros ->.
Qed.
End Signalling.

Section Cutoff.
Context `{Libraries}.
Import waitlistUtils userManagementUtils userManagementControllers.



End Cutoff.

(** ** The scenarios of the specification *)

(** Scenario B: waitlist-only mode, cutoff 1, position 2. *)
Example scenario_B :
  evaluate false 2 (Sample.settings 1 "waitlist") = WaitlistOnlyIneligible.
Proof. reflexivity. Qed.

(** Scenario C: never queued, waitlist-only mode. *)
Example scenario_C :
  evaluate false 0 (Sample.settings 5 "waitlist") = WaitlistOnlyIneligible.
Proof. reflexivity. Qed.

(** Scenario D: position 3 under a negative cutoff. *)
Example scenario_D :
  evaluate false 3 (Sample.settings (-1) "all")
  = BlockedByCutoff NegativeCutoff.
Proof. reflexivity. Qed.

(** Scenario E: position 3 under a cutoff of 2. *)
Example scenario_E :
  evaluate false 3 (Sample.settings 2 "all")
  = BlockedByCutoff PositionBeyondCutoff.
Proof. reflexivity. Qed.

(** Scenario F: ten registered under a cap of ten, identity not queued. *)
Example scenario_F :
  evaluate false 0
    {| settings_id := 1; signed_up_users := 10; signed_up_user_limit := 10;
       waitlist_limit := 2; invite_code_limit := 0; invite_code_length := 8;
       signup_cutoff := 5; allowed_registrations := "all" |}
  = CapacityExhausted.
Proof. reflexivity. Qed.

(** * Further properties *)

(** ** The lookups of the admission store *)

Section Lookups.
Context `{Libraries}.
Import waitlistUtils.

Lemma isOnWaitlist_run (identifier : string) (s : store) :
  ∃ commands,
    isOnWaitlist identifier s
    = (bool_decide (is_Some (emails s !! identifier)
                    ∨ is_Some (phones s !! identifier)),
       s, [redis_eval script_isOnWaitlist commands])
    ∧ filter (λ c, is_write c = true) commands = [].
Proof.
  unfold isOnWaitlist, REDIS_SCRIPTS.isOnWaitlist. unfold_monads. simpl.
  destruct (emails s !! identifier) as [e|] eqn:He; simpl.
  - by eexists.
  - destruct (phones s !! identifier) as [p|] eqn:Hp; simpl; by eexists.
Qed.

Lemma getPositionByIdentifier_run (identifier : string) (s : store) :
  ∃ commands,
    getPositionByIdentifier identifier s
    = (match emails s !! identifier with
       | Some entryId => positionOfEntry s entryId
       | None =>
           match phones s !! identifier with
           | Some entryId => positionOfEntry s entryId
           | None => 0
           end
       end, s, [redis_eval script_getPositionByIdentifier commands])
    ∧ filter (λ c, is_write c = true) commands = [].
Proof.
  unfold getPositionByIdentifier, REDIS_SCRIPTS.getPositionByIdentifier.
  unfold_monads. simpl.
  destruct (emails s !! identifier) as [e|]; simpl; [by eexists|].
  destruct (phones s !! identifier) as [p|]; simpl; by eexists.
Qed.

(** X1. The lookups are read-only and agree with the index:
    [isOnWaitlist] answers whether the identifier is a key of the email or
    of the phone hash; [getPositionByIdentifier] answers what [getPosition]
    answers for the id found under it, the email hash first, and 0 when
    the identifier is in neither hash; and none of the three changes the
    store or sends a write to Redis. *)
Theorem lookups_read_only (identifier : string) (s : store) :
  (∃ t, isOnWaitlist identifier s
        = (bool_decide (is_Some (emails s !! identifier)
                        ∨ is_Some (phones s !! identifier)), s, t)
        ∧ writes_of t = [])
  ∧ (∃ t, getPositionByIdentifier identifier s
          = (match emails s !! identifier, phones s !! identifier with
             | Some entryId, _ => (getPosition entryId s).1.1
             | None, Some entryId => (getPosition entryId s).1.1
             | None, None => 0
             end, s, t)
          ∧ writes_of t = [])
  ∧ (∃ p t, getPosition identifier s = (p, s, t) ∧ writes_of t = []).
Proof.
  split; [|split].
  - destruct (isOnWaitlist_run identifier s) as (c & -> & Hc).
    eexists. split; [done|]. unfold writes_of. simpl.
    by rewrite app_nil_r.
  - destruct (getPositionByIdentifier_run identifier s) as (c & -> & Hc).
    eexists. split.
    + by destruct (emails s !! identifier), (phones s !! identifier).
    + unfold writes_of. simpl. by rewrite app_nil_r.
  - by do 2 eexists.
Qed.

(** X2. [getPosition] answers the 1-based rank of the first occurrence of
    the id in the queue: the answer lies between 0 and the queue length,
    it is 0 exactly when the id is not queued, and otherwise the queue
    holds the id at that rank and nowhere before it. *)
Theorem getPosition_is_first_rank (entryId : string) (s : store) :
  let p := (getPosition entryId s).1.1 in
  0 ≤ p ≤ Z.of_nat (length (queue s))
  ∧ (p = 0 ↔ entryId ∉ queue s)
  ∧ (0 < p →
     queue s !! Z.to_nat (p - 1) = Some entryId
     ∧ ∀ n : nat, (n < Z.to_nat (p - 1))%nat → queue s !! n ≠ Some entryId).
Proof.
  simpl. destruct (decide (entryId ∈ queue s)) as [Hin|Hnotin].
  - destruct (ipairs_find_in (queue s) entryId 1 Hin)
      as (n & Hn & Hfirst & ->).
    apply lookup_lt_Some in Hn as Hlt.
    replace (Z.to_nat (1 + Z.of_nat n - 1)) with n by lia.
    split; [lia|]. split; [split; [lia|done]|done].
  - rewrite (ipairs_find_notin _ _ _ Hnotin).
    split; [lia|]. split; [done|lia].
Qed.

(** X3. With a capacity, a newly admitted identity gets the id that was
    drawn for it and a position between 1 and the capacity, which is the
    length of the queue after the call. *)
Theorem new_admission_position (s : store) (data : UserData JSONValue)
    (capacity : Z) (finalUserId : string) (identity : Identity)
    (r : InsertResult) (s' : store) (t : list event) :
  normalize (username data) = Some identity →
  IdentityIndex s identity = None →
  insertUser data capacity finalUserId s = (Return r, s', t) →
  id r = finalUserId
  ∧ already_existed r = false
  ∧ 1 ≤ position r ≤ capacity
  ∧ position r = Z.of_nat (length (queue s'))
  ∧ queue s' = queue s ++ [finalUserId].
Proof.
  intros Hn Hnew Hrun. rewrite (insertUser_valid _ _ _ _ _ Hn) in Hrun.
  unfold enqueueOrLookup_spec in Hrun. rewrite Hnew in Hrun.
  destruct (Z.geb_spec (Z.of_nat (length (queue s))) capacity); [done|].
  destruct identity; injection Hrun as <- <- _; simpl;
    rewrite length_app; simpl;
    (split; [done|]); (split; [done|]); (split; [lia|]); (split; [lia|done]).
Qed.
End Lookups.

(** ** What every run of store operations keeps *)

Section Keeps.
Context `{Libraries}.
Import waitlistUtils.

Lemma indexed_queued_after (op : operation) (s : store) :
  indexed_queued s → indexed_queued (after op s).
Proof.
  intros Hidx.
  destruct op as [data capacity finalUserId| | |];
    try (by rewrite after_read).
  destruct (after_insertUser data capacity finalUserId s)
    as [->|[(entryId & record & ->)
           |(identity & record & _ & Hnew & Hroom & ->)]].
  - done.
  - intros identity e He. apply (Hidx identity). by destruct identity.
  - intros identity' e. rewrite queue_admitted.
    destruct identity as [a|p], identity' as [a'|p']; simpl; intros He.
    + destruct (decide (a = a')) as [->|Hne].
      * rewrite lookup_insert_eq in He. simplify_eq. set_solver.
      * rewrite lookup_insert_ne in He by done.
        apply (Hidx (Email a')) in He. set_solver.
    + apply (Hidx (Phone p')) in He. set_solver.
    + apply (Hidx (Email a')) in He. set_solver.
    + destruct (decide (p = p')) as [->|Hne].
      * rewrite lookup_insert_eq in He. simplify_eq. set_solver.
      * rewrite lookup_insert_ne in He by done.
        apply (Hidx (Phone p')) in He. set_solver.
Qed.

Lemma recorded_after (op : operation) (s : store) :
  recorded s → recorded (after op s).
Proof.
  intros Hrec.
  destruct op as [data capacity finalUserId| | |];
    try (by rewrite after_read).
  destruct (after_insertUser data capacity finalUserId s)
    as [->|[(entryId & record & ->)
           |(identity & record & _ & Hnew & Hroom & ->)]].
  - done.
  - intros e He. simpl in *.
    destruct (decide (entryId = e)) as [->|Hne].
    + rewrite lookup_insert_eq. by eexists.
    + rewrite lookup_insert_ne by done. by apply Hrec.
  - intros e. rewrite queue_admitted. intros He.
    assert (users (hash_set waitlist_users finalUserId record
                     (index_identity identity finalUserId
                        (Store (queue s ++ [finalUserId]) (users s)
                           (emails s) (phones s))))
            = <[finalUserId := record]> (users s)) as ->
      by (by destruct identity).
    destruct (decide (finalUserId = e)) as [->|Hne].
    + rewrite lookup_insert_eq. by eexists.
    + rewrite lookup_insert_ne by done. apply Hrec.
      apply elem_of_app in He as [He|He%list_elem_of_singleton];
        [done|congruence].
Qed.

Lemma counted_after (op : operation) (s : store) :
  (size (emails s) + size (phones s))%nat = length (queue s) →
  (size (emails (after op s)) + size (phones (after op s)))%nat
  = length (queue (after op s)).
Proof.
  intros Hsize.
  destruct op as [data capacity finalUserId| | |];
    try (by rewrite after_read).
  destruct (after_insertUser data capacity finalUserId s)
    as [->|[(entryId & record & ->)
           |(identity & record & _ & Hnew & Hroom & ->)]]; [done..|].
  destruct identity as [address|e164]; simpl in *;
    rewrite length_app; simpl;
    rewrite map_size_insert_None by done; lia.
Qed.

Lemma grows_after (op : operation) (s : store) :
  queue s `prefix_of` queue (after op s)
  ∧ emails s ⊆ emails (after op s)
  ∧ phones s ⊆ phones (after op s)
  ∧ dom (users s) ⊆ dom (users (after op s)).
Proof.
  destruct op as [data capacity finalUserId| | |];
    try (by rewrite after_read).
  destruct (after_insertUser data capacity finalUserId s)
    as [->|[(entryId & record & ->)
           |(identity & record & _ & Hnew & Hroom & ->)]].
  - done.
  - simpl. repeat split; [done..|]. rewrite dom_insert. set_solver.
  - rewrite queue_admitted. split; [by apply prefix_app_r|].
    destruct identity as [address|e164]; simpl in *;
      (split; [by try apply insert_subseteq|]);
      (split; [by try apply insert_subseteq|]);
      rewrite dom_insert; set_solver.
Qed.

Lemma keeps_run (P : store → Prop) (ops : list operation) (s : store) :
  (∀ op s, P s → P (after op s)) → P s → P (run ops s).
Proof.
  intros Hstep. revert s. induction ops as [|op ops IH]; intros s Hs; [done|].
  simpl. apply IH. by apply Hstep.
Qed.

(** X4. The store is append-only: whatever operations run, the queue they
    find is a prefix of the queue they leave, no identity is dropped from
    the index or moved to another entry id, and no record is deleted. *)
Theorem store_append_only (ops : list operation) (s : store) :
  queue s `prefix_of` queue (run ops s)
  ∧ emails s ⊆ emails (run ops s)
  ∧ phones s ⊆ phones (run ops s)
  ∧ dom (users s) ⊆ dom (users (run ops s))
  ∧ ∀ identity entryId,
      IdentityIndex s identity = Some entryId →
      IdentityIndex (run ops s) identity = Some entryId.
Proof.
  assert (queue s `prefix_of` queue (run ops s)
          ∧ emails s ⊆ emails (run ops s)
          ∧ phones s ⊆ phones (run ops s)
          ∧ dom (users s) ⊆ dom (users (run ops s))) as (Hq & He & Hp & Hu).
  { apply (keeps_run (λ s', queue s `prefix_of` queue s'
                            ∧ emails s ⊆ emails s'
                            ∧ phones s ⊆ phones s'
                            ∧ dom (users s) ⊆ dom (users s'))); [|done].
    intros op s' (Hq & He & Hp & Hu).
    destruct (grows_after op s') as (Hq' & He' & Hp' & Hu').
    repeat split; by etrans. }
  repeat split; [done..|].
  intros [address|e164] entryId Hidx; simpl in *.
  - by apply (lookup_weaken _ _ _ _ Hidx).
  - by apply (lookup_weaken _ _ _ _ Hidx).
Qed.

(** X5. In every store reached from the empty one, each indexed entry id
    is queued, each queued entry id has a stored record, and the queue
    holds exactly one entry per indexed identity. *)
Theorem reachable_store_consistent (ops : list operation) :
  let s := run ops empty_store in
  indexed_queued s
  ∧ recorded s
  ∧ (size (emails s) + size (phones s))%nat = length (queue s).
Proof.
  split; [|split].
  - apply keeps_run; [apply indexed_queued_after|]. by intros [].
  - apply keeps_run; [apply recorded_after|]. by intros ? ?%elem_of_nil.
  - by apply (keeps_run (λ s, (size (emails s) + size (phones s))%nat
                              = length (queue s))); [apply counted_after|].
Qed.

(** X6. In every store reached from the empty one, an identifier is on
    the waitlist exactly when its position is positive; in any store at
    all, a positive position implies that the identifier is on the
    waitlist. *)
Theorem on_waitlist_iff_positioned (ops : list operation)
    (identifier : string) :
  (let s := run ops empty_store in
   (isOnWaitlist identifier s).1.1 = true
   ↔ 0 < (getPositionByIdentifier identifier s).1.1)
  ∧ ∀ s, 0 < (getPositionByIdentifier identifier s).1.1 →
         (isOnWaitlist identifier s).1.1 = true.
Proof.
  assert (∀ s, 0 < (getPositionByIdentifier identifier s).1.1 →
               (isOnWaitlist identifier s).1.1 = true) as Hany.
  { intros s.
    destruct (isOnWaitlist_run identifier s) as (c & -> & _).
    destruct (getPositionByIdentifier_run identifier s) as (c' & -> & _).
    simpl. intros Hpos. apply bool_decide_eq_true_2.
    destruct (emails s !! identifier); [left; by eexists|].
    destruct (phones s !! identifier); [right; by eexists|lia]. }
  split; [|done]. intros s. split; [|apply Hany].
  assert (indexed_queued s) as Hidx
    by (apply keeps_run; [apply indexed_queued_after|]; by intros []).
  destruct (isOnWaitlist_run identifier s) as (c & -> & _).
  destruct (getPositionByIdentifier_run identifier s) as (c' & -> & _).
  simpl. intros Hon%bool_decide_eq_true_1.
  assert (∀ entryId, entryId ∈ queue s → 0 < positionOfEntry s entryId)
    as Hrank.
  { intros entryId Hin. unfold positionOfEntry.
    destruct (ipairs_find_in (queue s) entryId 1 Hin) as (n & _ & _ & ->).
    lia. }
  destruct (emails s !! identifier) as [e|] eqn:He.
  - apply Hrank, (Hidx (Email identifier)). done.
  - destruct (phones s !! identifier) as [p|] eqn:Hp.
    + apply Hrank, (Hidx (Phone identifier)). done.
    + by destruct Hon as [[? [=]]|[? [=]]].
Qed.

(** X7. What an admission returns can be looked up afterwards: when
    [insertUser] returns an entry, the position of the identifier, the
    position of the returned id and the membership test on the store it
    leaves all agree with the result, and the record is stored under the
    returned id.  A new entry must have drawn an id that is not queued
    yet, and a phone number must not be a key of the email hash. *)
Theorem admitted_is_found (s : store) (data : UserData JSONValue)
    (capacity : Z) (finalUserId : string) (identity : Identity)
    (r : InsertResult) (s' : store) (t : list event) :
  normalize (username data) = Some identity →
  insertUser data capacity finalUserId s = (Return r, s', t) →
  (IdentityIndex s identity = None → finalUserId ∉ queue s) →
  (∀ e164, identity = Phone e164 → emails s !! e164 = None) →
  let identifier := (identity_key identity).2 in
  (getPositionByIdentifier identifier s').1.1 = position r
  ∧ (getPosition (id r) s').1.1 = position r
  ∧ (isOnWaitlist identifier s').1.1 = true
  ∧ users s' !! id r = Some (stored_record identity (metadata data)).
Proof.
  intros Hn Hrun Hfresh Hphone identifier.
  rewrite (insertUser_valid _ _ _ _ _ Hn) in Hrun.
  unfold enqueueOrLookup_spec in Hrun.
  destruct (isOnWaitlist_run identifier s') as (c & -> & _).
  destruct (getPositionByIdentifier_run identifier s') as (c' & -> & _).
  subst identifier. simpl.
  destruct (IdentityIndex s identity) as [entryId|] eqn:Hidx.
  - injection Hrun as <- <- _.
    destruct identity as [address|e164]; simpl in *.
    + rewrite Hidx. split; [done|]. split; [done|].
      split; [|apply lookup_insert_eq].
      apply bool_decide_eq_true_2. left. by eexists.
    + rewrite (Hphone e164 eq_refl), Hidx. split; [done|]. split; [done|].
      split; [|apply lookup_insert_eq].
      apply bool_decide_eq_true_2. right. by eexists.
  - destruct (Z.of_nat (length (queue s)) >=? capacity); [done|].
    injection Hrun as <- <- _. specialize (Hfresh eq_refl).
    pose proof (ipairs_find_app_fresh (queue s) finalUserId 1 Hfresh) as Hp.
    destruct identity as [address|e164]; simpl in *; unfold positionOfEntry;
      simpl; rewrite ?(Hphone e164 eq_refl), !lookup_insert_eq, Hp,
        length_app; simpl.
    + split; [lia|]. split; [lia|]. by split.
    + split; [lia|]. split; [lia|]. by split.
Qed.
End Keeps.

(** ** Validation and the controllers *)

Section Controllers.
Context `{Libraries}.
Import waitlistUtils userManagementUtils userManagementControllers.

Lemma accepted_or_rejected (username : unknown) :
  (∃ identifier, accepted username identifier) ∨ rejected username.
Proof.
  unfold rejected, accepted.
  destruct (isValid _); [|right; by intros ? (? & _)].
  destruct (sanitizedIdentifier _) as [identifier|];
    [|right; by intros ? (_ & ? & _)].
  destruct (decide (identifier = EmptyString)) as [->|Hne].
  - right. intros ? (_ & [= <-] & ?). done.
  - left. by exists identifier.
Qed.

Lemma rejected_validation (username : unknown) :
  rejected username →
  negb (isValid (validateAndSanitizeUsername username))
  || negb (truthy (sanitizedIdentifier (validateAndSanitizeUsername username)))
  = true.
Proof.
  intros Hrej. destruct (isValid _) eqn:Hvalid; [|done].
  destruct (sanitizedIdentifier _) as [identifier|] eqn:Hid; [|done].
  simpl. destruct (String.eqb_spec identifier EmptyString); [done|].
  by destruct (Hrej identifier).
Qed.

Lemma accepted_validation (username : unknown) (identifier : string) :
  accepted username identifier →
  negb (isValid (validateAndSanitizeUsername username))
  || negb (truthy (sanitizedIdentifier (validateAndSanitizeUsername username)))
  = false
  ∧ or_empty (sanitizedIdentifier (validateAndSanitizeUsername username))
    = identifier.
Proof.
  intros (-> & -> & Hne%String.eqb_neq). simpl. by rewrite Hne.
Qed.

(** X8. The result of validation is consistent: it is valid exactly when
    it carries an identifier and exactly when it carries no error; a
    missing, empty or non-string username is turned down with "Username
    required"; and a valid result is the trimmed lower-cased username
    when the username is an email address, and otherwise the E.164 number
    of a valid phone number, with the email test taking precedence. *)
Theorem validation_consistent (username : unknown) :
  let validation := validateAndSanitizeUsername username in
  (isValid validation = true ↔ is_Some (sanitizedIdentifier validation))
  ∧ (isValid validation = true ↔ error validation = None)
  ∧ ((∀ raw, username = a_string raw → raw = EmptyString) →
     isValid validation = false
     ∧ error validation = Some "Username required")
  ∧ (isValid validation = true →
     ∃ raw, username = a_string raw ∧ raw ≠ EmptyString
       ∧ if validator_isEmail raw
         then sanitizedIdentifier validation
              = Some (String_trim (String_toLowerCase raw))
         else ∃ phoneNumber,
                parsePhoneNumberFromString raw = Some phoneNumber
                ∧ PhoneNumber.isValid phoneNumber = true
                ∧ sanitizedIdentifier validation
                  = Some (PhoneNumber.number phoneNumber)).
Proof.
  unfold validateAndSanitizeUsername.
  destruct username as [raw|truthiness]; simpl;
    [destruct (String.eqb_spec raw EmptyString) as [->|Hne]; simpl;
     [|destruct (validator_isEmail raw) eqn:Hemail; simpl;
       [|destruct (parsePhoneNumberFromString raw) as [phoneNumber|]
           eqn:Hparse; simpl;
         [destruct (PhoneNumber.isValid phoneNumber) eqn:Hvalid; simpl|]]]|];
    (split; [split; [intros ?; first [done|by eexists]|by intros [? ?]]|]);
    (split; [by split|]);
    (split; [intros Hraw; try (by destruct Hne, (Hraw raw)); done|]);
    try done; intros _; exists raw; rewrite Hemail;
    (split; [done|]); (split; [done|]); [done|by exists phoneNumber].
Qed.

(** The four controllers on a request that validation turns down. *)
Lemma controllers_rejected (username : unknown)
    (supabaseClient : SupabaseClient) (uuid : string) (s : store) :
  rejected username →
  (∃ response, addToWaitlistController username supabaseClient uuid s
               = (response, s, []) ∧ status response = 400)
  ∧ (∃ response, waitlistUserCanSignUpController username supabaseClient s
                 = (response, s, []) ∧ status response = 400)
  ∧ (∃ response, isOnWaitlistController username s
                 = (response, s, []) ∧ status response = 400)
  ∧ (∃ response, registerUserController username supabaseClient uuid s
                 = (response, s, []) ∧ status response = 400).
Proof.
  intros Hrej%rejected_validation.
  unfold addToWaitlistController, waitlistUserCanSignUpController,
    isOnWaitlistController, registerUserController.
  rewrite Hrej.
  repeat split; try (destruct (js_truthy username)); by eexists.
Qed.

(** X9. A request that validation turns down is answered with status 400
    by each of the four controllers, before anything is read from or
    written to Redis or the registry: the store is the one it found and
    the trace is empty. *)
Theorem rejected_requests_touch_nothing (username : unknown)
    (supabaseClient : SupabaseClient) (uuid : string) (s : store) :
  rejected username →
  ∀ response s' t,
    (addToWaitlistController username supabaseClient uuid s
     = (response, s', t)
     ∨ waitlistUserCanSignUpController username supabaseClient s
       = (response, s', t)
     ∨ isOnWaitlistController username s = (response, s', t)
     ∨ registerUserController username supabaseClient uuid s
       = (response, s', t)) →
    status response = 400 ∧ s' = s ∧ t = [].
Proof.
  intros Hrej response s' t Hrun.
  destruct (controllers_rejected username supabaseClient uuid s Hrej)
    as ((r1 & H1 & ?) & (r2 & H2 & ?) & (r3 & H3 & ?) & (r4 & H4 & ?)).
  rewrite H1, H2, H3, H4 in Hrun.
  by destruct Hrun as [Hrun|[Hrun|[Hrun|Hrun]]]; injection Hrun as <- <- <-.
Qed.

Lemma writes_of_eval name commands (t : list event) :
  writes_of (redis_eval name commands :: t)
  = filter (λ c, is_write c = true) commands ++ writes_of t.
Proof. unfold writes_of. simpl. by rewrite filter_app. Qed.

Lemma writes_of_rpc fn (t : list event) :
  writes_of (supabase_rpc fn :: t) = writes_of t.
Proof. done. Qed.

(** Evaluate the counters of a trace that is written out. *)
Ltac count_trace :=
  unfold commits, admissions; simpl;
  repeat (rewrite writes_of_eval || rewrite writes_of_rpc);
  change (writes_of []) with (@nil command).

(** What the can-sign-up controller does with a request that validation
    lets through. *)
Lemma waitlistUserCanSignUpController_accepted username supabaseClient s
    identifier :
  accepted username identifier →
  ∃ response t,
    waitlistUserCanSignUpController username supabaseClient s
    = (response, s, t)
    ∧ commits t = 0%nat ∧ admissions t = 0%nat ∧ writes_of t = []
    ∧ ((∀ settings,
          get_current_settings supabaseClient ≠ rpc_data (Some settings)) →
       status response = 500)
    ∧ (field "can_sign_up" response = Some (JBool true) →
       ∃ settings,
         get_current_settings supabaseClient = rpc_data (Some settings)
         ∧ alreadyRegistered supabaseClient identifier = false
         ∧ (isOnWaitlist identifier s).1.1 = true
         ∧ 0 ≤ signup_cutoff settings
         ∧ positionOf s identifier ≤ signup_cutoff settings).
Proof.
  intros Hacc. unfold waitlistUserCanSignUpController.
  rewrite (accepted_truthy _ _ Hacc).
  destruct (accepted_validation _ _ Hacc) as [-> ->]. simpl.
  destruct (isOnWaitlist_run identifier s) as (c & Hon & Hc).
  destruct (getPositionByIdentifier_reads identifier s) as (c' & Hread & Hc').
  unfold mbind, Task_bind, getCurrentOnboardingSettings, checkUserExists,
    alreadyRegistered.
  simpl. rewrite Hon. simpl.
  set (known := match check_user_exists supabaseClient identifier with
                | rpc_data existsData => default false existsData
                | rpc_error _ => false
                end).
  set (on := bool_decide _).
  destruct (get_current_settings supabaseClient) as [[settings|]|message];
    simpl.
  - destruct known; simpl.
    + destruct on; simpl; rewrite ?Hread; simpl;
        do 2 eexists; (split; [done|]); count_trace; rewrite ?Hc, ?Hc'; simpl;
        (split; [done|]); (split; [done|]); (split; [done|]);
        (split; [by intros Hno; destruct (Hno settings)|]); by unfold field.
    + destruct on eqn:Hison; simpl; rewrite ?Hread; simpl;
        do 2 eexists; (split; [done|]); count_trace; rewrite ?Hc, ?Hc'; simpl;
        (split; [done|]); (split; [done|]); (split; [done|]);
        (split; [by intros Hno; destruct (Hno settings)|]);
        unfold field; simpl; try done.
      unfold canSignUp. intros [= Hcan].
      exists settings. repeat split; try done; lia.
  - do 2 eexists. split; [done|]. count_trace. rewrite ?Hc. simpl.
    by unfold field.
  - do 2 eexists. split; [done|]. count_trace. rewrite ?Hc. simpl.
    by unfold field.
Qed.

(** X10. The two checking controllers are read-only: whatever the
    request, the can-sign-up controller and the is-on-waitlist controller
    leave the store as it was, attempt no commit, run no admission and
    send no write to Redis. *)
Theorem checks_are_read_only (username : unknown)
    (supabaseClient : SupabaseClient) (s : store) :
  (∃ response t,
     waitlistUserCanSignUpController username supabaseClient s
     = (response, s, t)
     ∧ commits t = 0%nat ∧ admissions t = 0%nat ∧ writes_of t = [])
  ∧ (∃ response t,
       isOnWaitlistController username s = (response, s, t)
       ∧ commits t = 0%nat ∧ admissions t = 0%nat ∧ writes_of t = []).
Proof.
  destruct (accepted_or_rejected username) as [[identifier Hacc]|Hrej].
  - split.
    + destruct (waitlistUserCanSignUpController_accepted username
                  supabaseClient s identifier Hacc)
        as (response & t & Hrun & Hc & Ha & Hw & _).
      by exists response, t.
    + unfold isOnWaitlistController. rewrite (accepted_truthy _ _ Hacc).
      destruct (accepted_validation _ _ Hacc) as [-> ->]. simpl.
      destruct (isOnWaitlist_run identifier s) as (c & Hon & Hc).
      unfold mbind, Task_bind. rewrite Hon. simpl.
      do 2 eexists. split; [done|]. count_trace. by rewrite ?Hc.
  - destruct (controllers_rejected username supabaseClient
                EmptyString s Hrej)
      as (_ & (r1 & -> & _) & (r2 & -> & _) & _).
    split; by do 2 eexists.
Qed.

(** X11. The can-sign-up controller answers [can_sign_up: true] only for
    an identifier that validation lets through, that the registry does
    not know, that is on the waitlist, and whose position is within a
    non-negative signup cutoff. *)
Theorem can_sign_up_only_within_cutoff (username : unknown)
    (supabaseClient : SupabaseClient) (s : store) :
  field "can_sign_up"
    (waitlistUserCanSignUpController username supabaseClient s).1.1
  = Some (JBool true) →
  ∃ identifier settings,
    accepted username identifier
    ∧ get_current_settings supabaseClient = rpc_data (Some settings)
    ∧ alreadyRegistered supabaseClient identifier = false
    ∧ (isOnWaitlist identifier s).1.1 = true
    ∧ 0 ≤ signup_cutoff settings
    ∧ positionOf s identifier ≤ signup_cutoff settings.
Proof.
  destruct (accepted_or_rejected username) as [[identifier Hacc]|Hrej].
  - destruct (waitlistUserCanSignUpController_accepted username
                supabaseClient s identifier Hacc)
      as (response & t & -> & _ & _ & _ & _ & Hcan).
    simpl. intros Htrue. destruct (Hcan Htrue) as (settings & ?).
    by exists identifier, settings.
  - apply rejected_validation in Hrej.
    unfold waitlistUserCanSignUpController. rewrite Hrej.
    by destruct (js_truthy username).
Qed.

(** What the add-to-waitlist controller does with a request that
    validation lets through. *)
Lemma addToWaitlistController_run username supabaseClient uuid s identifier :
  accepted username identifier →
  ∃ response s' t,
    addToWaitlistController username supabaseClient uuid s
    = (response, s', t)
    ∧ commits t = 0%nat ∧ (admissions t ≤ 1)%nat
    ∧ (admissions t = 0%nat → s' = s)
    ∧ ((∀ settings,
          get_current_settings supabaseClient ≠ rpc_data (Some settings)) →
       status response = 500 ∧ s' = s ∧ admissions t = 0%nat)
    ∧ (field "success" response = Some (JBool true) →
       status response = 200
       ∧ ∃ settings r ti,
           get_current_settings supabaseClient = rpc_data (Some settings)
           ∧ insertUser {| username := identifier; metadata := None |}
               (waitlist_limit settings) uuid s = (Return r, s', ti)
           ∧ id r ≠ EmptyString
           ∧ field "position" response = Some (JNum (position r))
           ∧ field "already_existed" response
             = Some (JBool (already_existed r))).
Proof.
  intros Hacc.
  destruct (get_current_settings supabaseClient) as [[settings|]|message]
    eqn:Hsettings.
  - destruct (insertUser_trace {| username := identifier; metadata := None |}
                (waitlist_limit settings) uuid s)
      as (result & s' & ti & Hins & Hc & Ha & Hs).
    rewrite (addToWaitlistController_accepted _ _ _ _ _ _ _ _ _
               Hacc Hsettings Hins).
    do 3 eexists. split; [done|].
    change (supabase_rpc rpc_get_current_settings :: ti)
      with ([supabase_rpc rpc_get_current_settings] ++ ti).
    rewrite commits_app, admissions_app, Hc.
    split; [done|]. split; [by simpl|].
    split; [intros Hz; by apply Hs|].
    split; [by intros Hno; destruct (Hno settings)|].
    destruct result as [r|message]; [|by unfold field].
    destruct (String.eqb_spec (id r) EmptyString) as [Hid|Hid];
      [by unfold field|].
    intros _. split; [done|]. by exists settings, r, ti.
  - unfold addToWaitlistController. rewrite (accepted_truthy _ _ Hacc).
    destruct (accepted_validation _ _ Hacc) as [-> ->]. simpl.
    unfold mbind, Task_bind, getCurrentOnboardingSettings.
    rewrite Hsettings. simpl. do 3 eexists. split; [done|].
    count_trace. split; [done|]. split; [lia|]. by unfold field.
  - unfold addToWaitlistController. rewrite (accepted_truthy _ _ Hacc).
    destruct (accepted_validation _ _ Hacc) as [-> ->]. simpl.
    unfold mbind, Task_bind, getCurrentOnboardingSettings.
    rewrite Hsettings. simpl. do 3 eexists. split; [done|].
    count_trace. split; [done|]. split; [lia|]. by unfold field.
Qed.

(** X12. When the onboarding settings cannot be fetched, the three
    controllers that need them answer a request that validation lets
    through with status 500, and for every request they leave the store
    as it was, attempt no commit and run no admission. *)
Theorem registry_failure_mutates_nothing (username : unknown)
    (supabaseClient : SupabaseClient) (uuid : string) (s : store) :
  (∀ settings,
     get_current_settings supabaseClient ≠ rpc_data (Some settings)) →
  (∃ response t,
     addToWaitlistController username supabaseClient uuid s
     = (response, s, t)
     ∧ commits t = 0%nat ∧ admissions t = 0%nat
     ∧ ∀ identifier, accepted username identifier → status response = 500)
  ∧ (∃ response t,
       waitlistUserCanSignUpController username supabaseClient s
       = (response, s, t)
       ∧ commits t = 0%nat ∧ admissions t = 0%nat
       ∧ ∀ identifier, accepted username identifier → status response = 500)
  ∧ (∃ response t,
       registerUserController username supabaseClient uuid s
       = (response, s, t)
       ∧ commits t = 0%nat ∧ admissions t = 0%nat
       ∧ ∀ identifier, accepted username identifier → status response = 500).
Proof.
  intros Hno.
  destruct (accepted_or_rejected username) as [[identifier Hacc]|Hrej].
  - split; [|split].
    + destruct (addToWaitlistController_run username supabaseClient uuid s
                  identifier Hacc)
        as (response & s' & t & -> & Hc & _ & _ & Hfail & _).
      destruct (Hfail Hno) as (Hstatus & -> & Ha).
      by exists response, t.
    + destruct (waitlistUserCanSignUpController_accepted username
                  supabaseClient s identifier Hacc)
        as (response & t & -> & Hc & Ha & _ & Hfail & _).
      exists response, t. repeat split; try done. intros _ _. by apply Hfail.
    + rewrite (registerUserController_accepted _ _ _ _ _ Hacc).
      destruct (fetched_reads s identifier) as (Hfc & Hfa & _).
      unfold getCurrentOnboardingSettings.
      destruct (get_current_settings supabaseClient)
        as [[settings|]|message]; [by destruct (Hno settings)|..];
        by do 2 eexists.
  - destruct (controllers_rejected username supabaseClient
                uuid s Hrej)
      as ((r1 & -> & _) & (r2 & -> & _) & _ & (r4 & -> & _)).
    repeat split; do 2 eexists; (split; [done|]);
      (split; [done|]); (split; [done|]);
      intros identifier Hacc; by destruct (Hrej identifier).
Qed.

(** X13. The add-to-waitlist controller never attempts the registration
    commit and runs the admission script at most once; without an
    admission the store is left as it was; and it answers [success: true]
    only with status 200, when [insertUser] returned an entry with a
    non-empty id, whose position and already-existed flag it passes on. *)
Theorem addToWaitlist_admits_at_most_once (username : unknown)
    (supabaseClient : SupabaseClient) (uuid : string) (s : store) :
  ∃ response s' t,
    addToWaitlistController username supabaseClient uuid s
    = (response, s', t)
    ∧ commits t = 0%nat ∧ (admissions t ≤ 1)%nat
    ∧ (admissions t = 0%nat → s' = s)
    ∧ (field "success" response = Some (JBool true) →
       status response = 200
       ∧ ∃ identifier settings r ti,
           accepted username identifier
           ∧ get_current_settings supabaseClient = rpc_data (Some settings)
           ∧ insertUser {| username := identifier; metadata := None |}
               (waitlist_limit settings) uuid s = (Return r, s', ti)
           ∧ id r ≠ EmptyString
           ∧ field "position" response = Some (JNum (position r))
           ∧ field "already_existed" response
             = Some (JBool (already_existed r))).
Proof.
  destruct (accepted_or_rejected username) as [[identifier Hacc]|Hrej].
  - destruct (addToWaitlistController_run username supabaseClient uuid s
                identifier Hacc)
      as (response & s' & t & -> & Hc & Ha & Hs & _ & Hsuccess).
    exists response, s', t. split; [done|].
    split; [done|]. split; [done|]. split; [done|].
    intros Htrue. destruct (Hsuccess Htrue) as (Hstatus & settings & r & ti & ?).
    split; [done|]. by exists identifier, settings, r, ti.
  - apply rejected_validation in Hrej.
    unfold addToWaitlistController. rewrite Hrej.
    destruct (js_truthy username); simpl; do 3 eexists;
      (split; [done|]); unfold commits, admissions; simpl;
      (split; [done|]); (split; [lia|]); by unfold field.
Qed.

(** The outcome is EligibleToRegister under these conditions and no
    others. *)
Lemma evaluate_eligible userExists waitlistPosition settings :
  evaluate userExists waitlistPosition settings = EligibleToRegister
  ↔ userExists = false
    ∧ ¬ (0 < signed_up_user_limit settings
         ∧ signed_up_user_limit settings ≤ signed_up_users settings)
    ∧ (0 < waitlistPosition →
       0 ≤ signup_cutoff settings
       ∧ waitlistPosition ≤ signup_cutoff settings)
    ∧ (allowed_registrations settings = "waitlist" → 0 < waitlistPosition).
Proof.
  unfold evaluate, userLimitReached, isWaitlistEligible, isUserOnWaitlist.
  destruct userExists; [by split; [|intros [? _]]|].
  destruct (Z.gtb_spec (signed_up_user_limit settings) 0),
    (Z.geb_spec (signed_up_users settings) (signed_up_user_limit settings));
    simpl; try (split; [done|intros (_ & Hno & _); destruct Hno; lia]).
  all: destruct (String.eqb_spec (allowed_registrations settings) "waitlist")
    as [Hmode|Hmode];
    destruct (Z.gtb_spec waitlistPosition 0),
      (Z.gtb_spec (signup_cutoff settings) 0),
      (Z.leb_spec waitlistPosition (signup_cutoff settings)),
      (Z.ltb_spec (signup_cutoff settings) 0),
      (Z.gtb_spec waitlistPosition (signup_cutoff settings));
    simpl; try lia;
    (split; [try done; intros _; repeat split; (done || lia)
            |try done; intros (_ & _ & Hcut & Hwait);
             try (specialize (Hwait Hmode)); lia]).
Qed.

Lemma evaluate_already userExists waitlistPosition settings :
  evaluate userExists waitlistPosition settings = AlreadyRegistered →
  userExists = true.
Proof.
  unfold evaluate. destruct userExists; [done|].
  destruct (userLimitReached settings); [done|].
  destruct (_ && _); [done|].
  destruct (isUserOnWaitlist waitlistPosition); [|done].
  destruct (signup_cutoff settings <? 0); [done|].
  by destruct (waitlistPosition >? signup_cutoff settings).
Qed.

(** What the handler of an outcome commits and answers. *)
Lemma act_answer outcome supabaseClient identifier settings waitlistPosition
    uuid s :
  ∃ response s' t,
    act outcome supabaseClient identifier settings waitlistPosition uuid s
    = (response, s', t)
    ∧ (commits t = 1%nat ↔ outcome = EligibleToRegister)
    ∧ (field "registered_signup" response = Some (JBool true) →
       status response = 200
       ∧ (outcome = AlreadyRegistered
          ∨ outcome = EligibleToRegister
            ∧ (registerNewUser supabaseClient identifier s).1.1 = true)).
Proof.
  destruct outcome as [| | |reason|]; simpl.
  - do 3 eexists. split; [done|]. split; [done|]. intros _. split; [done|].
    by left.
  - destruct (handleUserLimitReached_run identifier settings uuid s)
      as (result & s' & t & response & Hins & -> & Hfield & _).
    destruct (insertUser_trace {| username := identifier; metadata := None |}
                (waitlist_limit settings) uuid s)
      as (r0 & s0 & t0 & Hins' & Hc & _).
    rewrite Hins in Hins'. injection Hins' as <- <- <-.
    do 3 eexists. split; [done|]. rewrite Hc, Hfield. by split.
  - destruct (isUserOnWaitlist waitlistPosition).
    + do 3 eexists. split; [done|]. by split.
    + destruct (handleWaitlistOnlyRegistration_new identifier settings
                  waitlistPosition uuid s)
        as (result & s' & t & response & Hins & -> & Hfield & _).
      destruct (insertUser_trace
                  {| username := identifier; metadata := None |}
                  (waitlist_limit settings) uuid s)
        as (r0 & s0 & t0 & Hins' & Hc & _).
      rewrite Hins in Hins'. injection Hins' as <- <- <-.
      do 3 eexists. split; [done|]. rewrite Hc, Hfield. by split.
  - do 3 eexists. split; [done|]. by destruct reason.
  - unfold attemptUserRegistration, registerNewUser, mbind, Task_bind.
    simpl.
    destruct (match increment_user_count supabaseClient identifier with
              | rpc_data d => default false d
              | rpc_error _ => false
              end); simpl; do 3 eexists; (split; [done|]);
      (split; [done|]); [intros _; split; [done|by right]|by unfold field].
Qed.

(** X14. [registerUserController] attempts the registration commit for
    exactly those requests that validation lets through, with settings
    fetched, whose identifier the registry does not know, while the user
    limit is not reached, the identifier if queued is within a
    non-negative cutoff, and, in waitlist-only mode, the identifier is
    queued. *)
Theorem commit_exactly_when_eligible (rawUsername : unknown)
    (supabaseClient : SupabaseClient) (uuid : string) (s : store) :
  commits (registerUserController rawUsername supabaseClient uuid s).2
  = 1%nat
  ↔ ∃ identifier settings,
      accepted rawUsername identifier
      ∧ get_current_settings supabaseClient = rpc_data (Some settings)
      ∧ alreadyRegistered supabaseClient identifier = false
      ∧ ¬ (0 < signed_up_user_limit settings
           ∧ signed_up_user_limit settings ≤ signed_up_users settings)
      ∧ (0 < positionOf s identifier →
         0 ≤ signup_cutoff settings
         ∧ positionOf s identifier ≤ signup_cutoff settings)
      ∧ (allowed_registrations settings = "waitlist" →
         0 < positionOf s identifier).
Proof.
  destruct (accepted_or_rejected rawUsername) as [[identifier Hacc]|Hrej].
  - assert (∀ identifier', accepted rawUsername identifier' →
                           identifier' = identifier) as Hsame.
    { intros ? (_ & Hid' & _). destruct Hacc as (_ & Hid & _). congruence. }
    rewrite (registerUserController_accepted _ _ _ _ _ Hacc).
    destruct (fetched_reads s identifier) as (Hfc & _).
    unfold getCurrentOnboardingSettings.
    destruct (get_current_settings supabaseClient) as [[settings|]|message]
      eqn:Hsettings.
    + rewrite registerUserScenarios_act.
      destruct (act_answer
                  (evaluate (alreadyRegistered supabaseClient identifier)
                     (positionOf s identifier) settings)
                  supabaseClient identifier settings
                  (positionOf s identifier) uuid s)
        as (response & s' & t & -> & Hcommit & _).
      cbn -[fetched commits alreadyRegistered positionOf]. rewrite commits_app, Hfc, Hcommit, evaluate_eligible.
      cbn -[fetched commits alreadyRegistered positionOf].
      split.
      * intros ?. by exists identifier, settings.
      * intros (identifier' & settings' & Hacc' & [= <-] & ?).
        by rewrite (Hsame _ Hacc') in *.
    + cbn -[fetched commits alreadyRegistered positionOf]. rewrite Hfc. split; [done|].
      by intros (? & ? & _ & [=] & _).
    + cbn -[fetched commits alreadyRegistered positionOf]. rewrite Hfc. split; [done|].
      by intros (? & ? & _ & [=] & _).
  - destruct (registerUserController_rejected rawUsername supabaseClient
                uuid s Hrej) as (response & -> & _).
    split; [done|]. intros (identifier & _ & Hacc & _).
    by destruct (Hrej identifier).
Qed.

(** X15. [registerUserController] answers [registered_signup: true] only
    with status 200 and only for an identifier that the registry already
    knew or that the commit of this very call registered. *)
Theorem registered_signup_means_registered (rawUsername : unknown)
    (supabaseClient : SupabaseClient) (uuid : string) (s : store) :
  let '(response, _, t) :=
    registerUserController rawUsername supabaseClient uuid s in
  field "registered_signup" response = Some (JBool true) →
  status response = 200
  ∧ ∃ identifier,
      accepted rawUsername identifier
      ∧ (alreadyRegistered supabaseClient identifier = true
         ∨ commits t = 1%nat
           ∧ (registerNewUser supabaseClient identifier s).1.1 = true).
Proof.
  destruct (accepted_or_rejected rawUsername) as [[identifier Hacc]|Hrej].
  - rewrite (registerUserController_accepted _ _ _ _ _ Hacc).
    destruct (fetched_reads s identifier) as (Hfc & _).
    unfold getCurrentOnboardingSettings.
    destruct (get_current_settings supabaseClient) as [[settings|]|message];
      [|cbn -[fetched commits]; intros Hf; discriminate Hf..].
    rewrite registerUserScenarios_act.
    destruct (act_answer
                (evaluate (alreadyRegistered supabaseClient identifier)
                   (positionOf s identifier) settings)
                supabaseClient identifier settings
                (positionOf s identifier) uuid s)
      as (response & s' & t & -> & Hcommit & Hanswer).
    intros Htrue. destruct (Hanswer Htrue) as (Hstatus & Hwhy).
    split; [done|]. exists identifier. split; [done|].
    destruct Hwhy as [Hknown|[Heligible Hdone]].
    + left. by apply evaluate_already in Hknown.
    + right. rewrite commits_app, Hfc. split; [|done]. by apply Hcommit.
  - destruct (registerUserController_rejected rawUsername supabaseClient
                uuid s Hrej) as (response & Hrun & _).
    rewrite Hrun. unfold registerUserController in Hrun.
    rewrite (rejected_validation _ Hrej) in Hrun.
    injection Hrun as <-. cbn. intros Hf. discriminate Hf.
Qed.
End Controllers.

(** ** The query side *)

Section Split.

Lemma split_nonempty sep s : split sep s ≠ [].
Proof.
  destruct s as [|c rest]; simpl; [done|].
  destruct (Ascii.eqb c sep); [done|]. by destruct (split sep rest).
Qed.

Lemma split_join sep s :
  String.concat (String sep EmptyString) (split sep s) = s.
Proof.
  induction s as [|c rest IH]; [done|]. simpl.
  destruct (Ascii.eqb_spec c sep) as [->|Hne].
  - pose proof (split_nonempty sep rest).
    simpl. destruct (split sep rest) as [|piece pieces]; [done|].
    simpl in *. by rewrite IH.
  - pose proof (split_nonempty sep rest).
    destruct (split sep rest) as [|piece pieces]; [done|].
    simpl in *. destruct pieces; simpl in *; by rewrite <- IH.
Qed.

Lemma split_length sep s :
  length (split sep s) = S (occurrences sep s).
Proof.
  induction s as [|c rest IH]; [done|]. simpl.
  pose proof (split_nonempty sep rest).
  destruct (Ascii.eqb c sep); simpl; [by rewrite IH|].
  by destruct (split sep rest).
Qed.

Lemma split_pieces sep s :
  Forall (λ piece, occurrences sep piece = 0%nat) (split sep s).
Proof.
  induction s as [|c rest IH]; simpl; [by constructor|].
  destruct (Ascii.eqb c sep) eqn:Hc; [by constructor|].
  destruct (split sep rest) as [|piece pieces]; [by constructor; simpl; rewrite ?Hc|].
  apply Forall_cons in IH as [Hpiece Hpieces].
  constructor; [|done]. simpl. by rewrite Hc.
Qed.

End Split.

(** Membership in a list that is written out. *)
Ltac listed :=
  repeat first [apply list_elem_of_here | apply list_elem_of_further].

Ltac unlisted Hin :=
  repeat (apply elem_of_cons in Hin as [Hin|Hin];
          [try discriminate Hin; try (injection Hin as; subst)|]);
  try (by apply elem_of_nil in Hin).

Section Query.
Context `{RagLibraries}.
Import constants ragControllerUtils.

(** Flattening groups and numbering their members, from an offset. *)
Lemma groups_aligned (groups : list (list string)) (k : nat) :
  let flat := concat groups in
  let numbers :=
    concat (imap (λ idx group,
                    replicate (length group) (Z.of_nat (k + idx) + 1))
                 groups) in
  length numbers = length flat
  ∧ ∀ (i : nat) tag,
      flat !! i = Some tag →
      ∃ (g : nat) group,
        numbers !! i = Some (Z.of_nat (k + g) + 1)
        ∧ groups !! g = Some group ∧ tag ∈ group.
Proof.
  revert k. induction groups as [|group groups IH]; intros k; simpl.
  - split; [done|]. by intros i tag.
  - destruct (IH (S k)) as [Hlen Hmember].
    assert (imap ((λ idx g, replicate (length g) (Z.of_nat (k + idx) + 1)) ∘ S)
              groups
            = imap (λ idx g, replicate (length g) (Z.of_nat (S k + idx) + 1))
                groups) as Himap.
    { apply imap_ext. intros idx g _. simpl. f_equal; lia. }
    rewrite Himap. rewrite !length_app, length_replicate, Hlen.
    split; [done|]. intros i tag Htag.
    destruct (decide (i < length group)%nat) as [Hin|Hout].
    + rewrite lookup_app_l in Htag by done.
      exists 0%nat, group. split; [|split; [done|]].
      * rewrite lookup_app_l by (by rewrite length_replicate).
        rewrite lookup_replicate_2 by done. f_equal; lia.
      * by apply list_elem_of_lookup_2 in Htag.
    + rewrite lookup_app_r in Htag by lia.
      destruct (Hmember _ _ Htag) as (g & group' & Hnum & Hgroup & Hin').
      exists (S g), group'. split; [|done].
      rewrite lookup_app_r by (rewrite length_replicate; lia).
      rewrite length_replicate, Hnum. f_equal; lia.
Qed.

(** X16. The parameters are processed only for a query that passes the
    schema, and then the secondary hashtags are the groups flattened in
    order, with one group number for each: the number at an index is the
    1-based number of a group that holds the hashtag at that index. *)
Theorem hashtag_groups_aligned (query : RagQuery)
    (params : ProcessedRAGParams) :
  processRAGParams query = Return params →
  is_Some (ragQuerySchema_safeParse query)
  ∧ secondaryHashtags params = concat (secondaryHashtagGroups params)
  ∧ length (hashtagGroups params) = length (secondaryHashtags params)
  ∧ ∀ (i : nat) tag,
      secondaryHashtags params !! i = Some tag →
      ∃ (g : nat) group,
        hashtagGroups params !! i = Some (Z.of_nat g + 1)
        ∧ secondaryHashtagGroups params !! g = Some group
        ∧ tag ∈ group.
Proof.
  unfold processRAGParams.
  destruct (ragQuerySchema_safeParse query) as [parsed|]; [|done].
  intros [= <-]. simpl. split; [by eexists|]. split; [done|].
  apply (groups_aligned _ 0).
Qed.

(** X17. The hashtag parameters are split without loss.  A [hashtags]
    parameter, even an empty one, gives a non-empty list of hashtags free
    of commas that joined by commas is the parameter again, and a missing
    one gives no hashtag.  A [secondary_hashtags] parameter gives one
    group for each piece between pipes, an empty piece giving an empty
    group, and no hashtag of a group holds a comma. *)
Theorem hashtags_split_without_loss (query : RagQuery)
    (params : ProcessedRAGParams) :
  processRAGParams query = Return params →
  match query_hashtags query with
  | Some raw =>
      String.concat "," (hashtags params) = raw
      ∧ length (hashtags params) = S (occurrences "," raw)
      ∧ Forall (λ tag, occurrences "," tag = 0%nat) (hashtags params)
  | None => hashtags params = []
  end
  ∧ match query_secondary_hashtags query with
    | Some raw =>
        length (secondaryHashtagGroups params) = S (occurrences "|" raw)
        ∧ Forall (Forall (λ tag, occurrences "," tag = 0%nat))
            (secondaryHashtagGroups params)
        ∧ ∀ (g : nat) piece,
            split "|" raw !! g = Some piece →
            secondaryHashtagGroups params !! g
            = Some (if String.eqb piece EmptyString then []
                    else split "," piece)
    | None => secondaryHashtagGroups params = []
    end.
Proof.
  unfold processRAGParams.
  destruct (ragQuerySchema_safeParse query) as [parsed|]; [|done].
  intros [= <-]. simpl. split.
  - destruct (query_hashtags query) as [raw|]; [|done].
    split; [apply split_join|]. split; [apply split_length|].
    apply split_pieces.
  - destruct (query_secondary_hashtags query) as [raw|]; [|done].
    split; [by rewrite length_map, split_length|]. split.
    + apply Forall_map, Forall_forall. intros piece _. simpl.
      destruct (String.eqb piece EmptyString); [by constructor|].
      apply split_pieces.
    + intros g piece Hpiece. by rewrite list_lookup_fmap, Hpiece.
Qed.

Lemma LANGUAGE_CODE_MAP_supported code language :
  LANGUAGE_CODE_MAP !! code = Some language →
  language ∈ SUPPORTED_LANGUAGES ∧ language ≠ EmptyString.
Proof.
  intros Hin%elem_of_list_to_map_2.
  unfold SUPPORTED_LANGUAGES.
  repeat (apply elem_of_cons in Hin as [Heq|Hin];
          [injection Heq as -> ->; split; [|done];
           repeat first [apply list_elem_of_here | apply list_elem_of_further]|]).
  by apply elem_of_nil in Hin.
Qed.

(** X18. [validateLanguage] answers the language that the map gives for
    the code detected by franc, and the requested language when the code
    is not in the map; so it answers a supported language whenever the
    requested language is supported. *)
Theorem validateLanguage_supported (text requestedLanguage : string) :
  validateLanguage text requestedLanguage
  = default requestedLanguage (LANGUAGE_CODE_MAP !! franc text)
  ∧ (requestedLanguage ∈ SUPPORTED_LANGUAGES →
     validateLanguage text requestedLanguage ∈ SUPPORTED_LANGUAGES).
Proof.
  unfold validateLanguage.
  destruct (LANGUAGE_CODE_MAP !! franc text) as [language|] eqn:Hmap;
    simpl; [|done].
  destruct (LANGUAGE_CODE_MAP_supported _ _ Hmap) as [Hin Hne].
  apply String.eqb_neq in Hne. rewrite Hne. simpl.
  by rewrite bool_decide_eq_true_2.
Qed.

(** X19. [executeRAGQuery] issues a call exactly for the pairs of
    procedure name and hashtag flag that [RAG_CONTROLLER_RPC_FUNCTIONS]
    lists, and throws for every other pair; the call goes to the
    procedure that was named, in the [content_data] schema, and carries
    the hashtags, the secondary hashtags and their group numbers exactly
    when the hashtag flag is set. *)
Theorem executeRAGQuery_routes_the_table (params : ProcessedRAGParams)
    (queryEmbedding : Embedding) (rpcFunctionName : string)
    (useHashtags : bool) :
  match executeRAGQuery params queryEmbedding rpcFunctionName useHashtags with
  | Return call =>
      (∃ key endpoint paramsError,
         (key, (endpoint, paramsError, rpcFunctionName, useHashtags))
         ∈ RAG_CONTROLLER_RPC_FUNCTIONS)
      ∧ rpc_function call = rpcFunctionName
      ∧ rpc_schema call = "content_data"
      ∧ (useHashtags = true ↔
         ("hashtags", arg_strings (hashtags params)) ∈ rpc_args call
         ∧ ("secondary_hashtags", arg_strings (secondaryHashtags params))
           ∈ rpc_args call
         ∧ ("hashtag_groups", arg_groups (hashtagGroups params))
           ∈ rpc_args call)
  | Throw _ =>
      ∀ key endpoint paramsError,
        (key, (endpoint, paramsError, rpcFunctionName, useHashtags))
        ∉ RAG_CONTROLLER_RPC_FUNCTIONS
  end.
Proof.
  unfold executeRAGQuery, RAG_CONTROLLER_RPC_FUNCTIONS.
  destruct useHashtags.
  - destruct (String.eqb_spec rpcFunctionName
                "search_similar_content_with_hashtags_and_penalties")
      as [->|Hsemantic].
    { split; [do 3 eexists; listed|]. repeat split; simpl; listed. }
    destruct (String.eqb_spec rpcFunctionName
                "hybrid_search_with_hashtags_and_penalties") as [->|Hhybrid].
    { split; [do 3 eexists; listed|]. repeat split; simpl; listed. }
    intros key endpoint paramsError Hin. by unlisted Hin.
  - destruct (String.eqb_spec rpcFunctionName
                "search_similar_content_with_penalties") as [->|Hsemantic].
    { split; [do 3 eexists; listed|]. repeat split; try done.
      intros (Hin & _). simpl in Hin. by unlisted Hin. }
    destruct (String.eqb_spec rpcFunctionName "hybrid_search_with_penalties")
      as [->|Hhybrid].
    { split; [do 3 eexists; listed|]. repeat split; try done.
      intros (Hin & _). simpl in Hin. by unlisted Hin. }
    intros key endpoint paramsError Hin. by unlisted Hin.
Qed.

End Query.

(** ** The theorems at work on examples *)

Import waitlistUtils userManagementUtils userManagementControllers Sample.
#[local] Existing Instance Sample.libraries.

(** A second address joins a queue of one under a capacity of two. *)
Lemma insertUser_meets_contract_witness :
  normalize (username b_at_x) = Some (Email "b@x.com")
  ∧ ∃ commands,
      insertUser b_at_x 2 "u2" Sample.one_queued
      = (enqueueOrLookup_spec (Email "b@x.com")
           (stored_record (Email "b@x.com") None) 2 "u2" Sample.one_queued,
         [redis_eval script_insertUser commands]).
Proof.
  split; [reflexivity|].
  destruct (insertUser_meets_contract Sample.one_queued b_at_x 2 "u2"
              (Email "b@x.com") eq_refl) as (commands & Hrun & _).
  exists commands. exact Hrun.
Defined.

(** Scenario A: under a capacity of two, two addresses are admitted and
    the third is told that the waitlist is full. *)
Lemma capacity_enforced_witness :
  let ops := [op_insertUser a_at_x 2 "u1"; op_insertUser b_at_x 2 "u2"] in
  0 ≤ 2
  ∧ Forall (with_capacity 2) ops
  ∧ Z.of_nat (length (queue (run ops empty_store))) ≤ 2
  ∧ ∃ t, insertUser c_at_x 2 "u3" (run ops empty_store)
         = (Full 2, run ops empty_store, t).
Proof.
  intros ops.
  assert (0 ≤ 2) as HK by lia.
  assert (Forall (with_capacity 2) ops) as Hcaps by (repeat constructor).
  destruct (capacity_enforced 2 ops HK Hcaps) as [Hlen Hfull].
  split; [exact HK|]. split; [exact Hcaps|]. split; [exact Hlen|].
  apply (Hfull c_at_x "u3" (Email "c@x.com")); reflexivity.
Defined.

Lemma positions_dense_and_stable_witness :
  let ops := [op_insertUser a_at_x 5 "u1"; op_insertUser b_at_x 5 "u2"] in
  let later := [op_insertUser c_at_x 5 "u3"; op_getPosition "u1"] in
  NoDup (drawn_ids ops)
  ∧ map (positionOfEntry (run ops empty_store)) (queue (run ops empty_store))
    = [1; 2]
  ∧ positionOfEntry (run later (run ops empty_store)) "u2" = 2.
Proof.
  intros ops later.
  assert (NoDup (drawn_ids ops)) as Hnd
    by (apply (bool_decide_unpack _); vm_compute; exact I).
  destruct (positions_dense_and_stable ops later Hnd) as (Hdense & Hstable & _).
  split; [exact Hnd|]. split; [exact Hdense|].
  rewrite (Hstable "u2"); [reflexivity|].
  apply (bool_decide_unpack _); vm_compute; exact I.
Defined.

(** ["+123"] parses as a phone number that is not valid; ["b@x.com"] is
    new to a queue of one that is at its capacity of one. *)
Lemma failed_admission_leaves_store_witness :
  insertUser (Build_UserData (@JSONValue libraries) "+123" None) 1 "u2" Sample.one_queued
  = (Return invalid_result, Sample.one_queued, [])
  ∧ ∃ t, insertUser b_at_x 1 "u2" Sample.one_queued
         = (Full 1, Sample.one_queued, t)
         ∧ writes_of t = [].
Proof.
  split.
  - apply (failed_admission_leaves_store Sample.one_queued
             (Build_UserData (@JSONValue libraries) "+123" None) 1 "u2").
    + reflexivity.
    + intros phoneNumber [= <-]. reflexivity.
  - apply (failed_admission_leaves_store Sample.one_queued b_at_x 1 "u2")
      with (identity := Email "b@x.com").
    + reflexivity.
    + reflexivity.
    + simpl. lia.
Defined.

Lemma insertUser_idempotent_witness :
  normalize (username a_at_x) = Some (Email "a@x.com")
  ∧ IdentityIndex Sample.one_queued (Email "a@x.com") = Some "u1"
  ∧ ∃ s' t,
      insertUser a_at_x 2 "u2" Sample.one_queued
      = (Return {| id := "u1"; position := 1; already_existed := true |},
         s', t)
      ∧ queue s' = ["u1"].
Proof.
  split; [reflexivity|]. split; [reflexivity|].
  destruct (insertUser_idempotent Sample.one_queued a_at_x 2 "u2"
              (Email "a@x.com") "u1" eq_refl eq_refl)
    as (s' & t & Hrun & Hq & _).
  exists s', t. split; [exact Hrun|exact Hq].
Defined.


(** In waitlist-only mode, ["b@x.com"], which is not queued, is admitted
    by the one [insertUser] call of the request. *)
Lemma waitlisting_outcomes_witness :
  let settings := Sample.settings 1 "waitlist" in
  accepted (a_string "b@x.com") "b@x.com"
  ∧ get_current_settings (Sample.supabase settings)
    = rpc_data (Some settings)
  ∧ ∃ response s' t result ti,
      registerUserController (a_string "b@x.com") (Sample.supabase settings)
        "u2" Sample.one_queued = (response, s', t)
      ∧ insertUser b_at_x (waitlist_limit settings) "u2" Sample.one_queued
        = (result, s', ti)
      ∧ t = fetched Sample.one_queued "b@x.com" ++ ti
      ∧ field "registered_signup" response = Some (JBool false).
Proof.
  intros settings.
  assert (accepted (a_string "b@x.com") "b@x.com") as Hacc
    by (repeat split; discriminate).
  split; [exact Hacc|]. split; [reflexivity|].
  destruct (waitlisting_outcomes (a_string "b@x.com")
              (Sample.supabase settings) "u2" Sample.one_queued "b@x.com"
              settings Hacc eq_refl)
    as (response & s' & t & Hrun & Hadmit & _).
  destruct Hadmit as (result & ti & Hins & Ht & Hfield & _).
  { right. split; [reflexivity|]. vm_compute. discriminate. }
  exists response, s', t, result, ti.
  split; [exact Hrun|]. split; [exact Hins|]. split; [exact Ht|exact Hfield].
Defined.

(** A request for an identifier that the registry knows mutates nothing. *)
Lemma at_most_one_mutation_witness :
  let registry := Sample.supabase_registered (Sample.settings 5 "all") in
  accepted (a_string "a@x.com") "a@x.com"
  ∧ alreadyRegistered registry "a@x.com" = true
  ∧ ∃ response s' t,
      registerUserController (a_string "a@x.com") registry "u2"
        Sample.one_queued = (response, s', t)
      ∧ commits t = 0%nat ∧ admissions t = 0%nat.
Proof.
  intros registry.
  assert (accepted (a_string "a@x.com") "a@x.com") as Hacc
    by (repeat split; discriminate).
  split; [exact Hacc|]. split; [reflexivity|].
  destruct (at_most_one_mutation (a_string "a@x.com") registry "u2"
              Sample.one_queued)
    as (response & s' & t & Hrun & _ & _ & Hknown & _).
  exists response, s', t. split; [exact Hrun|].
  exact (Hknown "a@x.com" Hacc eq_refl).
Defined.

(** With a validator that disagrees with itself after lower-casing, the
    sentinel of [insertUser] reaches the add-to-waitlist controller. *)
Lemma invalid_returned_full_thrown_witness :
  let settings := Sample.settings 5 "all" in
  waitlistUtils.insertUser (H := Sample.libraries)
    (Build_UserData (@JSONValue Sample.libraries) "+123" None) 1 "u2"
    Sample.one_queued
  = (Return {| id := EmptyString; position := 0; already_existed := false |},
     Sample.one_queued, [])
  ∧ (∃ message t,
       waitlistUtils.insertUser (H := Sample.libraries) Sample.b_at_x 1 "u2"
         Sample.one_queued = (Throw message, Sample.one_queued, t))
  ∧ accepted (H := Sample.case_sensitive) (a_string "A@x.com") "a@x.com"
  ∧ (userManagementControllers.addToWaitlistController
       (H := Sample.case_sensitive) (a_string "A@x.com")
       (Sample.supabase settings) "u2" Sample.one_queued).1.1
    = {| status := 200;
         body := [("success", JBool false);
                  ("position", JNum 0);
                  ("already_existed", JBool false)] |}.
Proof.
  intros settings.
  assert (accepted (H := Sample.case_sensitive) (a_string "A@x.com") "a@x.com")
    as Hacc by (repeat split; discriminate).
  split; [|split; [|split; [exact Hacc|]]].
  - apply (invalid_returned_full_thrown (H := Sample.libraries)
             Sample.one_queued
             (Build_UserData (@JSONValue Sample.libraries) "+123" None)
             1 "u2").
    + reflexivity.
    + intros phoneNumber [= <-]. reflexivity.
  - apply (invalid_returned_full_thrown (H := Sample.libraries)
             Sample.one_queued Sample.b_at_x 1 "u2")
      with (identity := Email "b@x.com").
    + reflexivity.
    + reflexivity.
    + simpl. lia.
  - apply (proj2 (proj2 (invalid_returned_full_thrown
                           (H := Sample.case_sensitive) Sample.one_queued
                           (Build_UserData (@JSONValue Sample.case_sensitive)
                              "A@x.com" None) 1 "u2"))
             (a_string "A@x.com") (Sample.supabase settings) "a@x.com"
             settings
             (Return {| id := EmptyString; position := 0; already_existed := false |})
             Sample.one_queued [] Hacc eq_refl eq_refl eq_refl).
Defined.

(** ** Further examples *)

#[local] Existing Instance SampleRag.libraries.

(** ["b@x.com"] joins a queue of one under a capacity of two as ["u2"],
    at position 2. *)
Lemma new_admission_position_witness :
  normalize (username b_at_x) = Some (Email "b@x.com")
  ∧ IdentityIndex Sample.one_queued (Email "b@x.com") = None
  ∧ ∃ r s' t,
      insertUser b_at_x 2 "u2" Sample.one_queued = (Return r, s', t)
      ∧ id r = "u2"
      ∧ position r = Z.of_nat (length (queue s'))
      ∧ queue s' = ["u1"; "u2"].
Proof.
  split; [reflexivity|]. split; [reflexivity|].
  assert (∃ r s' t,
            insertUser b_at_x 2 "u2" Sample.one_queued = (Return r, s', t))
    as (r & s' & t & Hrun).
  { rewrite (insertUser_valid b_at_x 2 "u2" Sample.one_queued
               (Email "b@x.com") eq_refl).
    do 3 eexists. reflexivity. }
  destruct (new_admission_position Sample.one_queued b_at_x 2 "u2"
              (Email "b@x.com") r s' t eq_refl eq_refl Hrun)
    as (Hid & _ & _ & Hposition & Hqueue).
  exists r, s', t. split; [exact Hrun|]. split; [exact Hid|].
  split; [exact Hposition|exact Hqueue].
Defined.

(** After that admission ["b@x.com"] is found on the waitlist, at the
    position that was returned. *)
Lemma admitted_is_found_witness :
  normalize (username b_at_x) = Some (Email "b@x.com")
  ∧ ∃ r s' t,
      insertUser b_at_x 2 "u2" Sample.one_queued = (Return r, s', t)
      ∧ (getPositionByIdentifier "b@x.com" s').1.1 = position r
      ∧ (isOnWaitlist "b@x.com" s').1.1 = true.
Proof.
  split; [reflexivity|].
  assert (∃ r s' t,
            insertUser b_at_x 2 "u2" Sample.one_queued = (Return r, s', t))
    as (r & s' & t & Hrun).
  { rewrite (insertUser_valid b_at_x 2 "u2" Sample.one_queued
               (Email "b@x.com") eq_refl).
    do 3 eexists. reflexivity. }
  destruct (admitted_is_found Sample.one_queued b_at_x 2 "u2"
              (Email "b@x.com") r s' t eq_refl Hrun)
    as (Hposition & _ & Hon & _).
  - intros _ Hin. apply list_elem_of_singleton in Hin. discriminate Hin.
  - intros e164 Heq. discriminate Heq.
  - exists r, s', t. split; [exact Hrun|]. split; [exact Hposition|exact Hon].
Defined.

(** ["nobody"] is neither an email address nor a phone number: the
    register controller answers 400 and does nothing. *)
Lemma rejected_requests_touch_nothing_witness :
  let registry := Sample.supabase (Sample.settings 5 "all") in
  rejected (a_string "nobody")
  ∧ ∃ response,
      registerUserController (a_string "nobody") registry "u2"
        Sample.one_queued = (response, Sample.one_queued, [])
      ∧ status response = 400.
Proof.
  intros registry.
  assert (rejected (a_string "nobody")) as Hrej.
  { intros identifier (Hvalid & _). discriminate Hvalid. }
  split; [exact Hrej|].
  destruct (registerUserController (a_string "nobody") registry "u2"
              Sample.one_queued) as [[response s'] t] eqn:Hrun.
  destruct (rejected_requests_touch_nothing (a_string "nobody") registry
              "u2" Sample.one_queued Hrej response s' t)
    as (Hstatus & -> & ->).
  - right. right. right. exact Hrun.
  - exists response. split; [reflexivity|exact Hstatus].
Defined.

(** The queued ["a@x.com"], at position 1 under a cutoff of 5, may sign
    up. *)
Lemma can_sign_up_only_within_cutoff_witness :
  let registry := Sample.supabase (Sample.settings 5 "all") in
  field "can_sign_up"
    (waitlistUserCanSignUpController (a_string "a@x.com") registry
       Sample.one_queued).1.1
  = Some (JBool true)
  ∧ ∃ identifier settings,
      accepted (a_string "a@x.com") identifier
      ∧ get_current_settings registry = rpc_data (Some settings)
      ∧ positionOf Sample.one_queued identifier ≤ signup_cutoff settings.
Proof.
  intros registry.
  assert (field "can_sign_up"
            (waitlistUserCanSignUpController (a_string "a@x.com") registry
               Sample.one_queued).1.1
          = Some (JBool true)) as Hanswer by reflexivity.
  split; [exact Hanswer|].
  destruct (can_sign_up_only_within_cutoff (a_string "a@x.com") registry
              Sample.one_queued Hanswer)
    as (identifier & settings & Hacc & Hsettings & _ & _ & _ & Hcutoff).
  exists identifier, settings.
  split; [exact Hacc|]. split; [exact Hsettings|exact Hcutoff].
Defined.

(** With a registry that cannot deliver the settings, a valid request to
    register is answered with status 500 and changes nothing. *)
Lemma registry_failure_mutates_nothing_witness :
  let registry :=
    {| check_user_exists := λ _, rpc_data (Some false);
       get_current_settings := rpc_error "unavailable";
       increment_user_count := λ _, rpc_data (Some true) |} in
  (∀ settings, get_current_settings registry ≠ rpc_data (Some settings))
  ∧ accepted (a_string "b@x.com") "b@x.com"
  ∧ ∃ response t,
      registerUserController (a_string "b@x.com") registry "u2"
        Sample.one_queued = (response, Sample.one_queued, t)
      ∧ commits t = 0%nat ∧ admissions t = 0%nat
      ∧ status response = 500.
Proof.
  intros registry.
  assert (∀ settings,
            get_current_settings registry ≠ rpc_data (Some settings))
    as Hdown by (intros settings Heq; discriminate Heq).
  assert (accepted (a_string "b@x.com") "b@x.com") as Hacc
    by (repeat split; discriminate).
  split; [exact Hdown|]. split; [exact Hacc|].
  destruct (registry_failure_mutates_nothing (a_string "b@x.com") registry
              "u2" Sample.one_queued Hdown)
    as (_ & _ & response & t & Hrun & Hc & Ha & Hstatus).
  exists response, t. split; [exact Hrun|]. split; [exact Hc|].
  split; [exact Ha|exact (Hstatus "b@x.com" Hacc)].
Defined.

(** A request for an identifier that the registry knows is answered with
    [registered_signup: true] and status 200. *)
Lemma registered_signup_means_registered_witness :
  let registry := Sample.supabase_registered (Sample.settings 5 "all") in
  ∃ response s' t,
    registerUserController (a_string "a@x.com") registry "u2"
      Sample.one_queued = (response, s', t)
    ∧ field "registered_signup" response = Some (JBool true)
    ∧ status response = 200.
Proof.
  intros registry.
  pose proof (registered_signup_means_registered (a_string "a@x.com")
                registry "u2" Sample.one_queued) as Hmeans.
  assert (field "registered_signup"
            (registerUserController (a_string "a@x.com") registry "u2"
               Sample.one_queued).1.1
          = Some (JBool true)) as Hanswer by reflexivity.
  destruct (registerUserController (a_string "a@x.com") registry "u2"
              Sample.one_queued) as [[response s'] t].
  exists response, s', t. split; [reflexivity|].
  split; [exact Hanswer|exact (proj1 (Hmeans Hanswer))].
Defined.

(** Two groups with an empty one between them: the third group is
    numbered 3. *)
Lemma hashtag_groups_aligned_witness :
  let query := SampleRag.query (Some "a,b") (Some "x,y||z") in
  ∃ params,
    ragControllerUtils.processRAGParams query = Return params
    ∧ secondaryHashtags params = ["x"; "y"; "z"]
    ∧ hashtagGroups params = [1; 1; 3]
    ∧ length (hashtagGroups params) = length (secondaryHashtags params).
Proof.
  intros query. eexists. split; [reflexivity|].
  split; [reflexivity|]. split; [reflexivity|].
  exact (proj1 (proj2 (proj2
           (hashtag_groups_aligned query _ eq_refl)))).
Defined.

(** An empty [hashtags] parameter gives one empty hashtag, and three
    pieces between pipes give three groups. *)
Lemma hashtags_split_without_loss_witness :
  let query := SampleRag.query (Some EmptyString) (Some "x,y||z") in
  ∃ params,
    ragControllerUtils.processRAGParams query = Return params
    ∧ hashtags params = [EmptyString]
    ∧ secondaryHashtagGroups params = [["x"; "y"]; []; ["z"]]
    ∧ length (secondaryHashtagGroups params) = 3%nat.
Proof.
  intros query. eexists. split; [reflexivity|].
  split; [reflexivity|]. split; [reflexivity|].
  exact (proj1 (proj2 (hashtags_split_without_loss query _ eq_refl))).
Defined.
